(** * Earned Value Management report: scripts/evm.py

    A shallow embedding of the row normaliser ([_to_float], [_parse_date],
    [read_evm_csv]) and of the EVM engine ([_safe_div], [compute_evm]) of
    scripts/evm.py, with the properties of the cost ledger pipeline.

    Python [float] is IEEE 754 binary64: it is embedded as Rocq's primitive
    [float], whose operations are the same binary64 operations.  Python [str]
    is embedded as a list of characters (code points below 256).  A raised
    exception is the [Err] branch of a result type. *)

From Stdlib Require Import ZArith List String Ascii Bool Lia Floats Permutation.
Import ListNotations.
Local Open Scope string_scope.
Local Open Scope list_scope.
Local Open Scope Z_scope.
Set Warnings "-inexact-float".

(** ** Results and exceptions *)

Inductive result (E A : Type) : Type :=
| Ok (a : A)
| Err (e : E).
Arguments Ok {E A} a.
Arguments Err {E A} e.

Definition bind {E A B} (r : result E A) (k : A -> result E B) : result E B :=
  match r with
  | Ok a => k a
  | Err e => Err e
  end.

Notation "'do' x <- r ; k" := (bind r (fun x => k))
  (at level 10, x name, r at level 100, k at level 200).

(** ** Python strings *)

Module PyStr.

Definition str := list ascii.
Definition of_string (s : string) : str := list_ascii_of_string s.
Coercion of_string : string >-> str.

Definition code (c : ascii) : N := N_of_ascii c.

(** [str.isspace] on the code points below 256: TAB, LF, VT, FF, CR, FS, GS,
    RS, US, the space, NEL and the no-break space. *)
Definition isspace (c : ascii) : bool :=
  ((9 <=? code c) && (code c <=? 13) || (28 <=? code c) && (code c <=? 32)
   || (code c =? 133) || (code c =? 160))%N.

Fixpoint lstrip (s : str) : str :=
  match s with
  | [] => []
  | c :: t => if isspace c then lstrip t else s
  end.

Definition rstrip (s : str) : str := rev (lstrip (rev s)).

(** [s.strip()] *)
Definition strip (s : str) : str := rstrip (lstrip s).

(** [c in s] for a one-character [c] *)
Definition contains (c : ascii) (s : str) : bool := existsb (Ascii.eqb c) s.

Fixpoint rfind_from (c : ascii) (s : str) (i found : Z) : Z :=
  match s with
  | [] => found
  | x :: t => rfind_from c t (i + 1) (if Ascii.eqb x c then i else found)
  end.

(** [s.rfind(c)]: the highest index of [c] in [s], or [-1]. *)
Definition rfind (c : ascii) (s : str) : Z := rfind_from c s 0 (-1).

(** [s.replace(c, "")] *)
Definition remove_char (c : ascii) (s : str) : str :=
  filter (fun x => negb (Ascii.eqb x c)) s.

(** [s.replace(c, d)] *)
Definition replace_char (c d : ascii) (s : str) : str :=
  map (fun x => if Ascii.eqb x c then d else x) s.

Definition count (c : ascii) (s : str) : nat :=
  List.length (filter (Ascii.eqb c) s).

(** ASCII lower-casing, for the case-insensitive keywords of [float()]. *)
Definition lower_char (c : ascii) : ascii :=
  if ((65 <=? code c) && (code c <=? 90))%N then ascii_of_N (code c + 32) else c.

Definition lower (s : str) : str := map lower_char s.

Definition is_digit (c : ascii) : bool :=
  ((48 <=? code c) && (code c <=? 57))%N.

Definition digit_val (c : ascii) : Z := Z.of_N (code c) - 48.

(** [int(ds)] for a string of decimal digits *)
Definition digits_to_Z (ds : str) : Z :=
  fold_left (fun acc c => 10 * acc + digit_val c) ds 0.

Fixpoint span_digits (s : str) : str * str :=
  match s with
  | [] => ([], [])
  | c :: t =>
      if is_digit c then let (ds, r) := span_digits t in (c :: ds, r)
      else ([], s)
  end.

Definition eqb (a b : str) : bool :=
  if list_eq_dec ascii_dec a b then true else false.

End PyStr.
Import PyStr.

(** ** Python floats *)

Module PyFloat.

Local Open Scope float_scope.

(** [math.isnan], [math.isinf] *)
Definition isnan (x : float) : bool := is_nan x.
Definition isinf (x : float) : bool := is_infinity x.

(** The binary64 number nearest to [(-1)^neg * m * 10^e] (ties to even), as
    [float()] computes it from a decimal numeral. *)
Definition float_of_decimal (neg : bool) (m e : Z) : float :=
  match m with
  | Z0 => if neg then neg_zero else zero
  | Zpos p =>
      SF2Prim
        (if (0 <=? e)%Z
         then binary_normalize prec emax (cond_Zopp neg (Zpos p * 10 ^ e)) 0 false
         else SFdiv prec emax (S754_finite neg p 0)
                (S754_finite false (Z.to_pos (10 ^ (- e))) 0))
  | Zneg _ => nan
  end.

(** Underscores of a numeral: allowed only between two digits
    (CPython's [_Py_string_to_number_with_underscores]); they are removed. *)
Fixpoint drop_underscores (prev : ascii) (s : str) : option str :=
  match s with
  | [] => if Ascii.eqb prev "_" then None else Some []
  | c :: t =>
      if Ascii.eqb c "_" then
        if is_digit prev then drop_underscores c t else None
      else if Ascii.eqb prev "_" && negb (is_digit c) then None
      else option_map (cons c) (drop_underscores c t)
  end.

Definition parse_sign (s : str) : bool * str :=
  match s with
  | c :: t =>
      if Ascii.eqb c "-" then (true, t)
      else if Ascii.eqb c "+" then (false, t)
      else (false, s)
  | [] => (false, s)
  end.

(** What follows the mantissa: nothing, or [e] or [E], an optional sign and
    at least one digit. *)
Definition parse_exponent (s : str) : option Z :=
  match s with
  | [] => Some 0%Z
  | c :: t =>
      if Ascii.eqb c "e" || Ascii.eqb c "E" then
        let (neg, t') := parse_sign t in
        match span_digits t' with
        | ((_ :: _) as ds, []) => Some (cond_Zopp neg (digits_to_Z ds))
        | _ => None
        end
      else None
  end.

(** An unsigned decimal numeral: digits, an optional point and digits (at
    least one digit in all), an optional exponent.  It yields the integer
    written by the digits and the power of ten that scales it. *)
Definition parse_number (s : str) : option (Z * Z) :=
  let (ip, r1) := span_digits s in
  let (fp, r2) :=
    match r1 with
    | c :: t => if Ascii.eqb c "." then span_digits t else ([], r1)
    | [] => ([], r1)
    end in
  match ip ++ fp with
  | [] => None
  | ds =>
      match parse_exponent r2 with
      | Some e => Some (digits_to_Z ds, (e - Z.of_nat (List.length fp))%Z)
      | None => None
      end
  end.

(** [float(s)] for a string [s]; [None] is the [ValueError]
    "could not convert string to float". *)
Definition py_float (s : str) : option float :=
  match drop_underscores Ascii.zero (strip s) with
  | None => None
  | Some u =>
      let (neg, v) := parse_sign u in
      if PyStr.eqb (lower v) "inf" || PyStr.eqb (lower v) "infinity"
      then Some (if neg then neg_infinity else infinity)
      else if PyStr.eqb (lower v) "nan" then Some nan
      else
        match parse_number v with
        | Some (m, e) => Some (float_of_decimal neg m e)
        | None => None
        end
  end.

(** [math.isclose(a, b)] with its defaults [rel_tol=1e-09], [abs_tol=0.0]. *)
Definition rel_tol : float := float_of_decimal false 1 (-9).
Definition abs_tol : float := zero.

(** [rel_tol] is [rel_tol_mantissa * 2^-82]. *)
Definition rel_tol_mantissa : positive := 4835703278458517.

Definition isclose (a b : float) : bool :=
  if a =? b then true
  else if isinf a || isinf b then false
  else
    let diff := abs (b - a) in
    (diff <=? abs (rel_tol * b)) || (diff <=? abs (rel_tol * a))
    || (diff <=? abs_tol).

End PyFloat.
Import PyFloat.

(** ** Dates: [datetime.strptime] for the directives the script uses *)

Module PyDate.

(** A [datetime] whose time of day is midnight, as [strptime] builds it from
    a format with date directives only. *)
Record datetime : Type := mk_datetime { year : Z; month : Z; day : Z }.

Inductive directive : Type :=
| dir_Y            (* %Y: four digits *)
| dir_m            (* %m: 1[0-2] | 0[1-9] | [1-9] *)
| dir_d            (* %d: 3[0-1] | [1-2]\d | 0[1-9] | [1-9] | " "[1-9] *)
| lit (c : ascii). (* any other character stands for itself *)

Definition format := list directive.

(** The directives of a format string. *)
Fixpoint parse_format (f : str) : format :=
  match f with
  | [] => []
  | c :: t =>
      if Ascii.eqb c "%" then
        match t with
        | x :: t' =>
            (if Ascii.eqb x "Y" then dir_Y
             else if Ascii.eqb x "m" then dir_m
             else if Ascii.eqb x "d" then dir_d
             else lit x) :: parse_format t'
        | [] => [lit c]
        end
      else lit c :: parse_format t
  end.

Definition between (lo hi : ascii) (c : ascii) : bool :=
  ((code lo <=? code c) && (code c <=? code hi))%N.

(** The regular expression of a directive, as the ordered list of its
    alternatives; an alternative is a sequence of character classes. *)
Definition alternatives (d : directive) : list (list (ascii -> bool)) :=
  match d with
  | dir_Y => [[is_digit; is_digit; is_digit; is_digit]]
  | dir_m => [[Ascii.eqb "1"; between "0" "2"];
              [Ascii.eqb "0"; between "1" "9"];
              [between "1" "9"]]
  | dir_d => [[Ascii.eqb "3"; between "0" "1"];
              [between "1" "2"; is_digit];
              [Ascii.eqb "0"; between "1" "9"];
              [between "1" "9"];
              [Ascii.eqb " "; between "1" "9"]]
  | lit c => [[Ascii.eqb c]]
  end.

(** The text matched by a sequence of classes at the head of [s], and what
    follows it. *)
Fixpoint match_classes (cs : list (ascii -> bool)) (s : str) : option (str * str) :=
  match cs with
  | [] => Some ([], s)
  | p :: cs' =>
      match s with
      | c :: t =>
          if p c then
            match match_classes cs' t with
            | Some (m, r) => Some (c :: m, r)
            | None => None
            end
          else None
      | [] => None
      end
  end.

(** The named groups of a match. *)
Record groups : Type := mk_groups { g_Y : option str; g_m : option str; g_d : option str }.

Definition no_groups : groups := mk_groups None None None.

Definition set_group (d : directive) (txt : str) (g : groups) : groups :=
  match d with
  | dir_Y => mk_groups (Some txt) (g_m g) (g_d g)
  | dir_m => mk_groups (g_Y g) (Some txt) (g_d g)
  | dir_d => mk_groups (g_Y g) (g_m g) (Some txt)
  | lit _ => g
  end.

Fixpoint first_some {A B} (f : A -> option B) (l : list A) : option B :=
  match l with
  | [] => None
  | a :: t => match f a with Some b => Some b | None => first_some f t end
  end.

(** [re.match]: the first match in the backtracking order of the
    alternatives; the match need not reach the end of the text. *)
Fixpoint re_match (fmt : format) (s : str) (g : groups) : option (groups * str) :=
  match fmt with
  | [] => Some (g, s)
  | d :: fmt' =>
      first_some
        (fun alt =>
           match match_classes alt s with
           | Some (txt, rest) => re_match fmt' rest (set_group d txt g)
           | None => None
           end)
        (alternatives d)
  end.

(** [int(txt)] for the text of a group: digits, possibly after a space. *)
Definition py_int (txt : str) : Z := digits_to_Z (strip txt).

Definition is_leap (y : Z) : bool :=
  (y mod 4 =? 0) && (negb (y mod 100 =? 0) || (y mod 400 =? 0)).

Definition days_in_month (y m : Z) : Z :=
  if m =? 2 then (if is_leap y then 29 else 28)
  else if (m =? 4) || (m =? 6) || (m =? 9) || (m =? 11) then 30
  else 31.

(** The range check of the [date] constructor. *)
Definition valid_date (y m d : Z) : bool :=
  (1 <=? y) && (y <=? 9999) && (1 <=? m) && (m <=? 12)
  && (1 <=? d) && (d <=? days_in_month y m).

Definition group_or (g : option str) (default : Z) : Z :=
  match g with
  | Some txt => py_int txt
  | None => default
  end.

(** [datetime.strptime(s, fmt)]; [None] is its [ValueError] (no match,
    unconverted data after the match, or a day out of range for the month). *)
Definition strptime (s : str) (fmt : str) : option datetime :=
  match re_match (parse_format fmt) s no_groups with
  | Some (g, []) =>
      let y := group_or (g_Y g) 1900 in
      let m := group_or (g_m g) 1 in
      let d := group_or (g_d g) 1 in
      if valid_date y m d then Some (mk_datetime y m d) else None
  | _ => None
  end.

(** The order of [datetime] values (time of day being equal). *)
Definition date_leb (a b : datetime) : bool :=
  (year a <? year b)
  || (year a =? year b) && ((month a <? month b)
                            || (month a =? month b) && (day a <=? day b)).

End PyDate.
Import PyDate.

(** ** The script *)

Local Open Scope float_scope.

(** A record of the CSV reader, restricted to the required columns
    ([REQUIRED_COLS]): the text of its Date, PV, EV and AC cells.  (A line
    with fewer cells than the header, whose missing cells the reader fills
    with [None], is not represented.) *)
Module RawRow.
Record t : Type := mk { Date : str; PV : str; EV : str; AC : str }.
End RawRow.

(** The exceptions the script raises, each with the data its message
    carries. *)
Inductive exn : Type :=
| FloatValueError (s : str)
    (* float(s): "could not convert string to float: {s!r}" *)
| DateFormatError (d : str)
    (* "Unrecognized Date format: '{d}'. Use YYYY-MM-DD (recommended)." *)
| RowParseError (i : Z) (e : exn)
    (* "Error parsing row {i}: {e}" *)
| RowValueError (i : Z) (r : RawRow.t)
    (* "Row {i} has empty/non-numeric PV/EV/AC: {r}" *)
| NoRowsError
    (* "No rows to write." *)
| ZeroDivisionError.
    (* "float division by zero" *)

(** [float(s)], raising [ValueError] on text that is not a float numeral. *)
Definition float_of_str (s : str) : result exn float :=
  match py_float s with
  | Some v => Ok v
  | None => Err (FloatValueError s)
  end.

(** The rewriting of the separators in [_to_float], on the stripped text. *)
Definition normalize_separators (s : str) : str :=
  if contains "," s && contains "." s then
    if (rfind "," s >? rfind "." s)%Z
    then replace_char "," "." (remove_char "." s)
    else remove_char "," s
  else if contains "," s && negb (contains "." s)
       then replace_char "," "." s
       else s.

Definition _to_float (x : str) : result exn float :=
  let s := strip x in
  match s with
  | [] => Ok nan
  | _ => float_of_str (normalize_separators s)
  end.

(** [a / b] on floats raises when [b == 0] and is the binary64 quotient
    otherwise. *)
Definition truediv (a b : float) : result exn float :=
  if b =? 0 then Err ZeroDivisionError else Ok (a / b).

(** [_safe_div] with the exception of its division made explicit. *)
Definition _safe_div_exn (a b : float) : result exn float :=
  if (b =? 0) || isclose b 0 then Ok nan else truediv a b.

(** [_safe_div] as the total function it is (see [safe_div_never_raises]):
    the division is reached only when [b == 0] is false. *)
Definition _safe_div (a b : float) : float :=
  if (b =? 0) || isclose b 0 then nan else a / b.

Definition date_formats : list str :=
  ["%Y-%m-%d" : str; "%d/%m/%Y" : str; "%Y/%m/%d" : str].

(** The [for fmt in (...)] loop of [_parse_date]: the first format that
    [strptime] accepts decides. *)
Fixpoint try_formats (s : str) (fmts : list str) : option datetime :=
  match fmts with
  | [] => None
  | fmt :: rest =>
      match strptime s fmt with
      | Some dt => Some dt
      | None => try_formats s rest
      end
  end.

Definition _parse_date (d : str) : result exn datetime :=
  let s := strip d in
  match try_formats s date_formats with
  | Some dt => Ok dt
  | None => Err (DateFormatError d)
  end.

Record EVMRow : Type := mk_EVMRow { date : datetime; pv : float; ev : float; ac : float }.

(** The body of the [for i, r in enumerate(reader, start=2)] loop: the four
    conversions under one [try], then the NaN check. *)
Definition parse_row (i : Z) (r : RawRow.t) : result exn EVMRow :=
  match (do d <- _parse_date (RawRow.Date r);
         do p <- _to_float (RawRow.PV r);
         do e <- _to_float (RawRow.EV r);
         do a <- _to_float (RawRow.AC r);
         Ok (mk_EVMRow d p e a)) with
  | Err e => Err (RowParseError i e)
  | Ok row =>
      if existsb isnan [pv row; ev row; ac row]
      then Err (RowValueError i r)
      else Ok row
  end.

Fixpoint read_rows (i : Z) (reader : list RawRow.t) (rows : list EVMRow)
  : result exn (list EVMRow) :=
  match reader with
  | [] => Ok rows
  | r :: rest =>
      do row <- parse_row i r;
      read_rows (i + 1)%Z rest (rows ++ [row])
  end.

(** [rows.sort(key=lambda x: x.date)]: a stable sort. *)
Fixpoint insert_by_date (x : EVMRow) (l : list EVMRow) : list EVMRow :=
  match l with
  | [] => [x]
  | y :: t =>
      if date_leb (date y) (date x) then y :: insert_by_date x t
      else x :: l
  end.

Definition sort_by_date (l : list EVMRow) : list EVMRow :=
  fold_left (fun sorted x => insert_by_date x sorted) l [].

(** [read_evm_csv], from the records of the reader on: the file and header
    checks that precede the loop are input plumbing and are not embedded. *)
Definition read_evm_csv (reader : list RawRow.t) : result exn (list EVMRow) :=
  do rows <- read_rows 2 reader [];
  Ok (sort_by_date rows).

Module Detail.
Record t : Type := mk {
  Date : datetime;  (* written with strftime("%Y-%m-%d") *)
  PV_period : float; EV_period : float; AC_period : float;
  PV_cum : float; EV_cum : float; AC_cum : float;
  SV : float; CV : float; SPI : float; CPI : float }.
End Detail.

Module Summary.
Record t : Type := mk {
  BAC : float; BAC_source : string;
  PV_cum : float; EV_cum : float; AC_cum : float;
  SPI : float; CPI : float; SV : float; CV : float;
  EAC_CPI : float; ETC_CPI : float; VAC_CPI : float;
  EAC_CPI_SPI : float; ETC_CPI_SPI : float; VAC_CPI_SPI : float }.
End Summary.

(** The variables of the loop of [compute_evm]. *)
Record loop_state : Type := mk_state {
  cum_pv : float; cum_ev : float; cum_ac : float; out : list Detail.t }.

Definition loop_body (st : loop_state) (r : EVMRow) : loop_state :=
  let cum_pv := cum_pv st + pv r in
  let cum_ev := cum_ev st + ev r in
  let cum_ac := cum_ac st + ac r in
  let sv := cum_ev - cum_pv in
  let cv := cum_ev - cum_ac in
  let spi := _safe_div cum_ev cum_pv in
  let cpi := _safe_div cum_ev cum_ac in
  mk_state cum_pv cum_ev cum_ac
    (out st ++ [Detail.mk (date r) (pv r) (ev r) (ac r)
                  cum_pv cum_ev cum_ac sv cv spi cpi]).

Definition loop (rows : list EVMRow) : loop_state :=
  fold_left loop_body rows (mk_state 0 0 0 []).

(** [out[-1] if out else {}] *)
Definition last_of (out : list Detail.t) : option Detail.t :=
  match rev out with
  | d :: _ => Some d
  | [] => None
  end.

(** [last.get(key, default)] *)
Definition get (last : option Detail.t) (key : Detail.t -> float) (default : float) : float :=
  match last with
  | Some d => key d
  | None => default
  end.

(** [compute_evm] as the total function it is (see
    [compute_evm_never_raises]). *)
Definition compute_evm (rows : list EVMRow) (bac : option float)
  : list Detail.t * Summary.t :=
  let out := out (loop rows) in
  let last := last_of out in
  let inferred_bac := get last Detail.PV_cum 0 in
  let bac_final := match bac with Some b => b | None => inferred_bac end in
  let cpi_last := get last Detail.CPI nan in
  let spi_last := get last Detail.SPI nan in
  let ac_last := get last Detail.AC_cum 0 in
  let ev_last := get last Detail.EV_cum 0 in
  let eac_cpi := if negb (isnan cpi_last) then _safe_div bac_final cpi_last else nan in
  let denom :=
    if negb (isnan cpi_last) && negb (isnan spi_last) then cpi_last * spi_last else nan in
  let eac_cpi_spi :=
    if negb (isnan denom) then ac_last + _safe_div (bac_final - ev_last) denom else nan in
  let etc_cpi := if negb (isnan eac_cpi) then eac_cpi - ac_last else nan in
  let etc_cpi_spi := if negb (isnan eac_cpi_spi) then eac_cpi_spi - ac_last else nan in
  let vac_cpi := if negb (isnan eac_cpi) then bac_final - eac_cpi else nan in
  let vac_cpi_spi := if negb (isnan eac_cpi_spi) then bac_final - eac_cpi_spi else nan in
  (out,
   Summary.mk
     bac_final
     (match bac with Some _ => "user"%string | None => "inferred_from_last_PV_cum"%string end)
     (get last Detail.PV_cum 0) (get last Detail.EV_cum 0) (get last Detail.AC_cum 0)
     (get last Detail.SPI nan) (get last Detail.CPI nan)
     (get last Detail.SV nan) (get last Detail.CV nan)
     eac_cpi etc_cpi vac_cpi
     eac_cpi_spi etc_cpi_spi vac_cpi_spi).




(** [write_csv], as far as it can fail: the rows it writes, or the error for
    an empty table. *)
Definition write_csv (rows : list Detail.t) : result exn (list Detail.t) :=
  match rows with
  | [] => Err NoRowsError
  | _ => Ok rows
  end.

(** [main], from the records of the input file to the table written and the
    summary printed. *)
Definition main (reader : list RawRow.t) (bac : option float)
  : result exn (list Detail.t * Summary.t) :=
  do rows <- read_evm_csv reader;
  let (detail, summary) := compute_evm rows bac in
  do written <- write_csv detail;
  Ok (written, summary).

(** ** Vocabulary of the statements *)

(** The running total of a column over a ledger, from [0.0]. *)
Definition total (col : EVMRow -> float) (rows : list EVMRow) : float :=
  fold_left (fun acc r => acc + col r) rows 0.

(** The six forecasts of the summary, read off the final detail record [d]
    and the resolved BAC; the ratios are those of [_safe_div], which are the
    binary64 quotients when the denominator is not zero. *)
Definition forecasts_from_final (rows : list EVMRow) (bac : option float) : Prop :=
  exists d,
    last_of (fst (compute_evm rows bac)) = Some d /\
    Detail.PV_cum d = total pv rows /\
    Detail.EV_cum d = total ev rows /\
    Detail.AC_cum d = total ac rows /\
    Detail.SPI d = _safe_div (Detail.EV_cum d) (Detail.PV_cum d) /\
    Detail.CPI d = _safe_div (Detail.EV_cum d) (Detail.AC_cum d) /\
    let s := snd (compute_evm rows bac) in
    let BAC := Summary.BAC s in
    Summary.EAC_CPI s = _safe_div BAC (Detail.CPI d) /\
    Summary.ETC_CPI s = Summary.EAC_CPI s - Detail.AC_cum d /\
    Summary.VAC_CPI s = BAC - Summary.EAC_CPI s /\
    Summary.EAC_CPI_SPI s
    = Detail.AC_cum d
      + _safe_div (BAC - Detail.EV_cum d) (Detail.CPI d * Detail.SPI d) /\
    Summary.ETC_CPI_SPI s = Summary.EAC_CPI_SPI s - Detail.AC_cum d /\
    Summary.VAC_CPI_SPI s = BAC - Summary.EAC_CPI_SPI s /\
    ((Detail.CPI d =? 0) = false ->
     Summary.EAC_CPI s = BAC / Detail.CPI d) /\
    ((Detail.CPI d * Detail.SPI d =? 0) = false ->
     Summary.EAC_CPI_SPI s
     = Detail.AC_cum d + (BAC - Detail.EV_cum d) / (Detail.CPI d * Detail.SPI d)).

Definition example_ledger : list EVMRow :=
  [mk_EVMRow (mk_datetime 2024 1 1) 1000 900 950;
   mk_EVMRow (mk_datetime 2024 2 1) 1000 1100 1000].

Definition ledger_100000 : list EVMRow :=
  [mk_EVMRow (mk_datetime 2024 1 1) 60000 50000 55000;
   mk_EVMRow (mk_datetime 2024 2 1) 40000 30000 35000].

Definition ledger_no_cost : list EVMRow :=
  [mk_EVMRow (mk_datetime 2024 1 1) 1000 900 0].




(** An amount cell that the loop does not accept: [_to_float] raises on it
    or returns NaN. *)
Definition amount_is_bad (x : str) : bool :=
  match _to_float x with
  | Ok v => isnan v
  | Err _ => true
  end.

(** A date cell that none of the three formats parses. *)
Definition date_is_bad (d : str) : bool :=
  forallb (fun fmt => match strptime (strip d) fmt with Some _ => false | None => true end)
    date_formats.

Definition row_is_bad (r : RawRow.t) : bool :=
  date_is_bad (RawRow.Date r) || amount_is_bad (RawRow.PV r)
  || amount_is_bad (RawRow.EV r) || amount_is_bad (RawRow.AC r).

(** What the exception raised for row [r], numbered [i], carries: the row
    number and the unrecognized date text, or the row number and the
    rewritten text of the amount that [float()] refused, or the row number
    and the whole record. *)
Inductive diagnostic_of (i : Z) (r : RawRow.t) : exn -> Prop :=
| diag_date :
    date_is_bad (RawRow.Date r) = true ->
    diagnostic_of i r (RowParseError i (DateFormatError (RawRow.Date r)))
| diag_float (x : str) :
    In x [RawRow.PV r; RawRow.EV r; RawRow.AC r] ->
    _to_float x = Err (FloatValueError (normalize_separators (strip x))) ->
    diagnostic_of i r (RowParseError i (FloatValueError (normalize_separators (strip x))))
| diag_nan (x : str) :
    In x [RawRow.PV r; RawRow.EV r; RawRow.AC r] ->
    _to_float x = Ok nan ->
    diagnostic_of i r (RowValueError i r).

(** What a row of the ledger is, given the record it was built from. *)
Definition row_of (r : RawRow.t) (row : EVMRow) : Prop :=
  _parse_date (RawRow.Date r) = Ok (date row) /\
  _to_float (RawRow.PV r) = Ok (pv row) /\
  _to_float (RawRow.EV r) = Ok (ev row) /\
  _to_float (RawRow.AC r) = Ok (ac row) /\
  isnan (pv row) = false /\ isnan (ev row) = false /\ isnan (ac row) = false.

(** The text [dd/mm/2024] of a day and a month, two digits each. *)
Definition two_digits (n : Z) : str :=
  [ascii_of_N (48 + Z.to_N (n / 10)); ascii_of_N (48 + Z.to_N (n mod 10))].

Definition slash_date_2024 (d m : Z) : str :=
  two_digits d ++ "/"%char :: two_digits m ++ ("/2024" : str).

Definition reader_bad_third : list RawRow.t :=
  [RawRow.mk "2024-01-01" "1000" "900" "950";
   RawRow.mk "2024-02-01" "1000" "1100" "1000";
   RawRow.mk "2024-13-01" "1000" "1000" "1000";
   RawRow.mk "2024-04-01" "" "1000" "1000"].

(** ** Vocabulary of the further properties *)

From Stdlib Require Import Sorted.

(** Equality of [datetime] values. *)
Definition date_eqb (a b : datetime) : bool :=
  ((year a =? year b) && (month a =? month b) && (day a =? day b))%Z.

(** Two ledger rows in date order. *)
Definition by_date (a b : EVMRow) : Prop := date_leb (date a) (date b) = true.

(** The rows of a ledger that carry the date [d], in ledger order. *)
Definition rows_on (d : datetime) (l : list EVMRow) : list EVMRow :=
  filter (fun r => date_eqb (date r) d) l.

(** The row that the loop builds from a record (any row when the record is
    rejected). *)
Definition row_of_record (r : RawRow.t) : EVMRow :=
  match parse_row 0 r with
  | Ok row => row
  | Err _ => mk_EVMRow (mk_datetime 1 1 1) nan nan nan
  end.

(** The detail record of the row [r] that comes after the rows [before]:
    the running totals through [r] and the four metrics taken from them. *)
Definition detail_at (before : list EVMRow) (r : EVMRow) : Detail.t :=
  let cp := total pv (before ++ [r]) in
  let ce := total ev (before ++ [r]) in
  let ca := total ac (before ++ [r]) in
  Detail.mk (date r) (pv r) (ev r) (ac r) cp ce ca (ce - cp) (ce - ca)
    (if cp =? 0 then nan else ce / cp) (if ca =? 0 then nan else ce / ca).

Definition REQUIRED_COLS : list str := ["Date" : str; "PV" : str; "EV" : str; "AC" : str].

(** What [read_evm_csv] raises before it reads a record. *)
Inductive header_exn : Type :=
| FileNotFoundError
    (* "Input file not found: {path}" *)
| NoHeaderError
    (* "CSV has no header row." *)
| MissingColumnsError (missing found : list str).
    (* "Missing required columns: {missing}. Found: {reader.fieldnames}" *)

(** [[c for c in REQUIRED_COLS if c not in reader.fieldnames]] *)
Definition missing_columns (fieldnames : list str) : list str :=
  filter (fun c => negb (existsb (PyStr.eqb c) fieldnames)) REQUIRED_COLS.

(** The checks of [read_evm_csv] that precede its loop: the path exists, the
    file has a header row ([reader.fieldnames] is not [None]), no required
    column is missing. *)
Definition check_header (path_exists : bool) (fieldnames : option (list str))
  : result header_exn unit :=
  if negb path_exists then Err FileNotFoundError
  else
    match fieldnames with
    | None => Err NoHeaderError
    | Some names =>
        match missing_columns names with
        | [] => Ok tt
        | missing => Err (MissingColumnsError missing names)
        end
    end.

(** ** Formatting of the summary: [fmt_money], [fmt_ratio] *)

Module PyFormat.

Definition digit_char (d : Z) : ascii := ascii_of_N (48 + Z.to_N d).

Fixpoint digits_fuel (fuel : nat) (n : Z) (acc : str) : str :=
  match fuel with
  | O => acc
  | S f =>
      let acc' := digit_char (n mod 10) :: acc in
      if (n / 10 =? 0)%Z then acc' else digits_fuel f (n / 10) acc'
  end.

(** The decimal digits of a natural number, ["0"] for zero. *)
Definition digits_of_Z (n : Z) : str :=
  digits_fuel (S (Z.to_nat (Z.log2 n))) n [].

(** Zero padding on the left to [p] digits. *)
Definition pad (p : nat) (ds : str) : str :=
  repeat "0"%char (p - List.length ds) ++ ds.

Fixpoint group_rev (k : nat) (rs : str) : str :=
  match rs with
  | [] => []
  | c :: t =>
      if Nat.eqb k 3 then ","%char :: c :: group_rev 1 t
      else c :: group_rev (S k) t
  end.

(** The [,] option of a format: a comma between groups of three digits,
    counted from the right. *)
Definition group (ds : str) : str := rev (group_rev 0 (rev ds)).

(** The integer nearest to [m * 2^e * 10^p], ties to even. *)
Definition scaled (p : nat) (m : positive) (e : Z) : Z :=
  let ten := (10 ^ Z.of_nat p)%Z in
  if (0 <=? e)%Z then (Zpos m * 2 ^ e * ten)%Z
  else
    let num := (Zpos m * ten)%Z in
    let den := (2 ^ (- e))%Z in
    let q := (num / den)%Z in
    let r := (num mod den)%Z in
    match (2 * r ?= den)%Z with
    | Lt => q
    | Gt => (q + 1)%Z
    | Eq => if Z.even q then q else (q + 1)%Z
    end.

Definition sign_text (s : bool) : str := if s then ["-"%char] else [].

(** The digits of a number of hundredths (for [p = 2]): the integer part,
    grouped on request, the point, [p] decimals. *)
Definition fixed_text (p : nat) (grouping : bool) (q : Z) : str :=
  let ten := (10 ^ Z.of_nat p)%Z in
  let int_part := digits_of_Z (q / ten) in
  (if grouping then group int_part else int_part)
  ++ "."%char :: pad p (digits_of_Z (q mod ten)).

(** [format(x, ",.{p}f")] when [grouping], [format(x, ".{p}f")] otherwise,
    for [p >= 1]: the decimal expansion of [x] rounded to [p] decimals from
    its exact value, ties to even. *)
Definition format_f (p : nat) (grouping : bool) (x : float) : str :=
  match Prim2SF x with
  | S754_nan => ("nan" : str)
  | S754_infinity s => sign_text s ++ ("inf" : str)
  | S754_zero s => sign_text s ++ fixed_text p grouping 0
  | S754_finite s m e => sign_text s ++ fixed_text p grouping (scaled p m e)
  end.

End PyFormat.
Import PyFormat.

(** The argument is [None] or a float. *)
Definition fmt_money (x : option float) : str :=
  match x with
  | None => ("NA" : str)
  | Some v => if isnan v then ("NA" : str) else format_f 2 true v
  end.

Definition fmt_ratio (x : option float) : str :=
  match x with
  | None => ("NA" : str)
  | Some v => if isnan v then ("NA" : str) else format_f 3 false v
  end.

(** The characters of a formatted number: digits, the sign, the comma and
    the point. *)
Definition numeral_char (c : ascii) : bool :=
  is_digit c || Ascii.eqb c "-" || Ascii.eqb c "," || Ascii.eqb c ".".


(** The float that [float()] reads from the text of [x] with [p] decimals:
    an infinity or a zero is [x] itself, and a finite [x] is the binary64
    number nearest to the decimal printed. *)
Definition reread (p : nat) (x : float) : float :=
  match Prim2SF x with
  | S754_nan => nan
  | S754_infinity s => if s then neg_infinity else infinity
  | S754_zero s => float_of_decimal s 0 (0 - Z.of_nat p)
  | S754_finite s m e => float_of_decimal s (scaled p m e) (0 - Z.of_nat p)
  end.

(** A formatted number: an optional minus sign, then [inf], or the digits of
    the integer part ([grouping]: with commas), a point and [p] decimals. *)
Definition fixed_shape (p : nat) (grouping : bool) (text : str) : Prop :=
  exists s : bool,
    text = sign_text s ++ ("inf" : str) \/
    exists ip fp,
      text = sign_text s ++ (if grouping then group ip else ip) ++ "."%char :: fp /\
      forallb is_digit ip = true /\ ip <> [] /\
      forallb is_digit fp = true /\ List.length fp = p.

(** A float that is NaN or equal to zero. *)
Definition zero_or_nan (x : float) : bool := isnan x || (x =? 0).

(** The six forecasts of a summary. *)
Definition forecasts (s : Summary.t) : list float :=
  [Summary.EAC_CPI s; Summary.ETC_CPI s; Summary.VAC_CPI s;
   Summary.EAC_CPI_SPI s; Summary.ETC_CPI_SPI s; Summary.VAC_CPI_SPI s].

(** Two records, the later period first. *)
Definition reader_two : list RawRow.t :=
  [RawRow.mk "2024-02-01" "1000" "1100" "1000";
   RawRow.mk "2024-01-01" "1000" "900" "950"].

(** Two detail records in date order. *)
Definition by_detail_date (a b : Detail.t) : Prop :=
  date_leb (Detail.Date a) (Detail.Date b) = true.

(** * Properties *)

(** ** Binary64 facts used below *)

Section FloatFacts.

Lemma SFeqb_refl_false (x : spec_float) : SFeqb x x = false -> x = S754_nan.
Proof.
  destruct x as [s | s | | s m e]; unfold SFeqb; simpl; try discriminate; auto.
  - destruct s; discriminate.
  - destruct s; rewrite Z.compare_refl, Pos.compare_refl; discriminate.
Qed.

Lemma isnan_nan (x : float) : isnan x = true -> x = nan.
Proof.
  unfold isnan, is_nan. rewrite eqb_spec. intros H.
  apply Prim2SF_inj. rewrite (SFeqb_refl_false (Prim2SF x)); [reflexivity|].
  now destruct (SFeqb _ _).
Qed.

Lemma sub_nan_l (x : float) : nan - x = nan.
Proof. apply Prim2SF_inj. rewrite sub_spec. reflexivity. Qed.

Lemma sub_nan_r (x : float) : x - nan = nan.
Proof.
  apply Prim2SF_inj. rewrite sub_spec.
  change (Prim2SF nan) with S754_nan. now destruct (Prim2SF x).
Qed.

Lemma add_nan_r (x : float) : x + nan = nan.
Proof.
  apply Prim2SF_inj. rewrite add_spec.
  change (Prim2SF nan) with S754_nan. now destruct (Prim2SF x).
Qed.

Lemma div_nan_r (x : float) : x / nan = nan.
Proof.
  apply Prim2SF_inj. rewrite div_spec.
  change (Prim2SF nan) with S754_nan. now destruct (Prim2SF x).
Qed.

Lemma mul_nan_l (x : float) : nan * x = nan.
Proof. apply Prim2SF_inj. rewrite mul_spec. reflexivity. Qed.

Lemma mul_nan_r (x : float) : x * nan = nan.
Proof.
  apply Prim2SF_inj. rewrite mul_spec.
  change (Prim2SF nan) with S754_nan. now destruct (Prim2SF x).
Qed.

Lemma safe_div_nan_r (a : float) : _safe_div a nan = nan.
Proof.
  unfold _safe_div.
  replace ((nan =? 0) || isclose nan 0) with false by (vm_compute; reflexivity).
  apply div_nan_r.
Qed.

End FloatFacts.

(** ** Rounding facts, and [math.isclose] against zero *)

Section RoundingFacts.

Local Open Scope Z_scope.

Lemma shr_1_m mrs : 0 <= shr_m mrs -> shr_m (shr_1 mrs) = shr_m mrs / 2.
Proof.
  destruct mrs as [m r s]. cbn [shr_m shr_1].
  destruct m as [|[p|p|]|p]; cbn [shr_m]; intros H; try lia.
  - reflexivity.
  - rewrite Pos2Z.inj_xI. apply Z.div_unique with 1; lia.
  - rewrite Pos2Z.inj_xO. apply Z.div_unique with 0; lia.
  - reflexivity.
Qed.

Lemma iter_shr_m p : forall mrs,
  0 <= shr_m mrs -> shr_m (iter_pos shr_1 p mrs) = shr_m mrs / 2 ^ Zpos p.
Proof.
  induction p as [p IH|p IH|]; intros mrs H; cbn [iter_pos].
  - assert (H1 : 0 <= shr_m (shr_1 mrs)) by (rewrite shr_1_m by easy; apply Z.div_pos; lia).
    assert (H2 : 0 <= shr_m (iter_pos shr_1 p (shr_1 mrs)))
      by (rewrite IH by easy; apply Z.div_pos; [easy|apply Z.pow_pos_nonneg; lia]).
    rewrite IH, IH, shr_1_m by easy.
    rewrite !Z.div_div by (try apply Z.pow_pos_nonneg; lia).
    f_equal. replace (Zpos p~1) with (1 + Zpos p + Zpos p) by lia.
    rewrite !Z.pow_add_r by lia. lia.
  - assert (H2 : 0 <= shr_m (iter_pos shr_1 p mrs))
      by (rewrite IH by easy; apply Z.div_pos; [easy|apply Z.pow_pos_nonneg; lia]).
    rewrite IH, IH by easy.
    rewrite !Z.div_div by (try apply Z.pow_pos_nonneg; lia).
    f_equal. replace (Zpos p~0) with (Zpos p + Zpos p) by lia.
    rewrite !Z.pow_add_r by lia. lia.
  - now apply shr_1_m.
Qed.

Lemma shr_spec mrs e n :
  0 <= shr_m mrs ->
  shr_m (fst (shr mrs e n)) = shr_m mrs / 2 ^ Z.max 0 n /\
  snd (shr mrs e n) = e + Z.max 0 n.
Proof.
  intros H. destruct n as [|p|p]; cbn [shr fst snd].
  - cbn. rewrite Z.div_1_r. lia.
  - rewrite iter_shr_m by easy. rewrite Z.max_r by lia. lia.
  - cbn. rewrite Z.div_1_r. lia.
Qed.

Lemma digits2_bounds p :
  2 ^ (Zpos (digits2_pos p) - 1) <= Zpos p < 2 ^ Zpos (digits2_pos p).
Proof.
  induction p as [p IH|p IH|]; cbn [digits2_pos].
  - rewrite Pos2Z.inj_succ.
    replace (Z.succ (Zpos (digits2_pos p)) - 1) with (Z.succ (Zpos (digits2_pos p) - 1)) by lia.
    rewrite !Z.pow_succ_r by lia. lia.
  - rewrite Pos2Z.inj_succ.
    replace (Z.succ (Zpos (digits2_pos p)) - 1) with (Z.succ (Zpos (digits2_pos p) - 1)) by lia.
    rewrite !Z.pow_succ_r by lia. lia.
  - cbn. lia.
Qed.

Lemma digits_le (p : positive) (k : Z) : Zpos p < 2 ^ k -> Zpos (digits2_pos p) <= k.
Proof.
  intros H. destruct (digits2_bounds p) as [Hl _].
  destruct (Z.le_gt_cases (Zpos (digits2_pos p)) k) as [|Hk]; [easy|exfalso].
  assert (2 ^ k <= 2 ^ (Zpos (digits2_pos p) - 1)) by (apply Z.pow_le_mono_r; lia).
  lia.
Qed.

Lemma digits_ge (p : positive) (k : Z) : 0 <= k -> 2 ^ k <= Zpos p -> k < Zpos (digits2_pos p).
Proof.
  intros Hk H. destruct (digits2_bounds p) as [_ Hu].
  destruct (Z.lt_ge_cases k (Zpos (digits2_pos p))) as [|Hk']; [easy|exfalso].
  assert (2 ^ Zpos (digits2_pos p) <= 2 ^ k) by (apply Z.pow_le_mono_r; lia).
  lia.
Qed.

Lemma rne_bounds m l : m <= round_nearest_even m l <= m + 1.
Proof.
  destruct l as [|[]]; cbn; try lia. destruct (Z.even m); lia.
Qed.

(** [binary_round_aux] on an exact integer: one shift to the format, the
    rounding of the last place, one more shift when the rounding carried. *)
Lemma binary_round_aux_exact sx mx ex :
  0 < mx ->
  exists m1',
    mx / 2 ^ Z.max 0 (fexp prec emax (Zdigits2 mx + ex) - ex) <= m1'
    <= mx / 2 ^ Z.max 0 (fexp prec emax (Zdigits2 mx + ex) - ex) + 1 /\
    binary_round_aux prec emax sx mx ex loc_Exact
    = let e1 := ex + Z.max 0 (fexp prec emax (Zdigits2 mx + ex) - ex) in
      let n2 := Z.max 0 (fexp prec emax (Zdigits2 m1' + e1) - e1) in
      match m1' / 2 ^ n2 with
      | Z0 => S754_zero sx
      | Zpos m =>
          if Z.leb (e1 + n2) (emax - prec) then S754_finite sx m (e1 + n2)
          else S754_infinity sx
      | Zneg _ => S754_nan
      end.
Proof.
  intros Hm. unfold binary_round_aux, shr_fexp.
  set (n1 := fexp prec emax (Zdigits2 mx + ex) - ex).
  destruct (shr_spec (shr_record_of_loc mx loc_Exact) ex n1) as [H1 H2];
    [cbn; lia|].
  destruct (shr (shr_record_of_loc mx loc_Exact) ex n1) as [mrs' e'].
  cbn [fst snd shr_record_of_loc shr_m] in H1, H2.
  set (m1' := round_nearest_even (shr_m mrs') (loc_of_shr_record mrs')).
  assert (Hb := rne_bounds (shr_m mrs') (loc_of_shr_record mrs')). fold m1' in Hb.
  assert (H0 : 0 <= shr_m mrs')
    by (rewrite H1; apply Z.div_pos; [lia|apply Z.pow_pos_nonneg; lia]).
  exists m1'. split; [rewrite <- H1; exact Hb|].
  cbn zeta. rewrite <- H2.
  set (n2 := fexp prec emax (Zdigits2 m1' + e') - e').
  destruct (shr_spec (shr_record_of_loc m1' loc_Exact) e' n2) as [H3 H4];
    [cbn; lia|].
  destruct (shr (shr_record_of_loc m1' loc_Exact) e' n2) as [mrs'' e''].
  cbn [fst snd shr_record_of_loc shr_m] in H3, H4.
  rewrite H3, H4. reflexivity.
Qed.

(** The product of [rel_tol] and a finite float [m * 2^e], [2 <= m], rounds
    to zero or to a float below [m * 2^e]. *)
Lemma mul_rel_tol_below (sx : bool) (m : positive) (e : Z) :
  bounded prec emax m e = true ->
  2 <= Zpos m ->
  match binary_round_aux prec emax sx (Zpos (rel_tol_mantissa * m)) (-82 + e) loc_Exact with
  | S754_zero _ => True
  | S754_finite _ m2 e2 => e2 < e \/ (e2 = e /\ Zpos m2 < Zpos m)
  | _ => False
  end.
Proof.
  unfold bounded, canonical_mantissa. intros [Hc He]%andb_prop Hm2.
  apply Z.eqb_eq in Hc. apply Z.leb_le in He.
  destruct (binary_round_aux_exact sx (Zpos (rel_tol_mantissa * m)) (-82 + e)) as (m1' & Hb & ->); [lia|].
  cbn zeta. unfold fexp, emin in *.
  change prec with 53 in *. change emax with 1024 in *.
  change (3 - 1024 - 53) with (-1074) in *.
  destruct (digits2_bounds m) as [Hdl Hdu].
  assert (Hdm := Pos2Z.is_pos (digits2_pos m)).
  set (dm := Zpos (digits2_pos m)) in *.
  cbn [Zdigits2] in *.
  set (dP := Zpos (digits2_pos (rel_tol_mantissa * m))) in *.
  assert (HdP1 : dP <= 53 + dm).
  { apply digits_le. rewrite Pos2Z.inj_mul, Z.pow_add_r by lia.
    assert (Zpos rel_tol_mantissa < 2 ^ 53) by (vm_compute; reflexivity).
    assert (0 < 2 ^ dm) by (apply Z.pow_pos_nonneg; lia). nia. }
  assert (HdP2 : dm + 51 < dP).
  { apply digits_ge; [lia|]. rewrite Pos2Z.inj_mul.
    replace (dm + 51) with (52 + (dm - 1)) by lia. rewrite Z.pow_add_r by lia.
    assert (2 ^ 52 <= Zpos rel_tol_mantissa) by (vm_compute; discriminate).
    assert (0 < 2 ^ (dm - 1)) by (apply Z.pow_pos_nonneg; lia). nia. }
  set (n1 := Z.max 0 (Z.max (dP + (-82 + e) - 53) (-1074) - (-82 + e))) in *.
  set (P := Zpos (rel_tol_mantissa * m)) in *.
  assert (HP : P < 2 ^ dP) by apply digits2_bounds.
  assert (HP0 : 0 < P) by (unfold P; lia).
  assert (Hn1 : dP - 53 <= n1) by lia.
  assert (Hm1 : P / 2 ^ n1 < 2 ^ 53).
  { apply Z.div_lt_upper_bound; [apply Z.pow_pos_nonneg; lia|].
    rewrite <- Z.pow_add_r by lia.
    assert (2 ^ dP <= 2 ^ (n1 + 53)) by (apply Z.pow_le_mono_r; lia). lia. }
  assert (Hm1' : 0 <= P / 2 ^ n1) by (apply Z.div_pos; [lia|apply Z.pow_pos_nonneg; lia]).
  set (e1 := -82 + e + n1) in *.
  assert (He1 : -1074 <= e1) by lia.
  assert (Hdm53 : dm <= 53) by lia.
  destruct m1' as [|q|q]; [rewrite Zdiv_0_l; exact I| |lia].
  cbn [Zdigits2].
  assert (Hq := Pos2Z.is_pos (digits2_pos q)).
  set (d1 := Zpos (digits2_pos q)) in *.
  destruct (Z.le_gt_cases (-1045) e) as [HA|HB].
  - (* the product lies at least 28 binades below *)
    assert (Hd1 : d1 <= 54).
    { apply digits_le. change (2 ^ 54) with (2 * 2 ^ 53). lia. }
    set (n2 := Z.max 0 (Z.max (d1 + e1 - 53) (-1074) - e1)).
    assert (Hn2 : 0 <= n2 <= 1) by lia.
    assert (He2 : e1 + n2 < e) by lia.
    assert (Hpos : 0 <= Zpos q / 2 ^ n2)
      by (apply Z.div_pos; [lia|apply Z.pow_pos_nonneg; lia]).
    destruct (Zpos q / 2 ^ n2) as [|p2|p2]; [exact I| |lia].
    replace (e1 + n2 <=? 1024 - 53) with true by (symmetry; apply Z.leb_le; lia).
    left. exact He2.
  - (* the product is subnormal *)
    assert (Hn1' : n1 = -992 - e) by lia.
    assert (He1' : e1 = -1074) by lia.
    assert (Hn54 : 54 <= n1) by lia.
    assert (Hdiv : P / 2 ^ n1 <= P / 2 ^ 54).
    { apply Z.div_le_compat_l; [lia|]. split; [reflexivity|].
      apply Z.pow_le_mono_r; lia. }
    assert (H82 : e = -1074 -> P / 2 ^ n1 = P / 4835703278458516698824704).
    { intros E. replace n1 with 82 by lia. reflexivity. }
    assert (HPm : P = Zpos rel_tol_mantissa * Zpos m) by (unfold P; apply Pos2Z.inj_mul).
    assert (Hmlt : Zpos m < 2 ^ 53).
    { assert (2 ^ dm <= 2 ^ 53) by (apply Z.pow_le_mono_r; lia). lia. }
    unfold rel_tol_mantissa in HPm.
    set (m1 := P / 2 ^ n1) in *. clearbody m1 P.
    change (2 ^ 54) with 18014398509481984 in Hdiv.
    change (2 ^ 53) with 9007199254740992 in Hmlt.
    assert (Hq52 : Zpos q < 2 ^ 53).
    { change (2 ^ 53) with 9007199254740992.
      assert (P / 18014398509481984 < 9007199254740991)
        by (apply Z.div_lt_upper_bound; lia).
      lia. }
    assert (Hd1 : d1 <= 53) by (apply digits_le; exact Hq52).
    replace (Z.max 0 (Z.max (d1 + e1 - 53) (-1074) - e1)) with 0 by lia.
    rewrite Z.div_1_r, Z.add_0_r.
    replace (e1 <=? 1024 - 53) with true by (symmetry; apply Z.leb_le; lia).
    destruct (Z.eq_dec e (-1074)) as [->|Hne]; [right|left; lia].
    split; [lia|]. specialize (H82 eq_refl).
    assert (P / 4835703278458516698824704 < Zpos m - 1)
      by (apply Z.div_lt_upper_bound; lia).
    lia.
Qed.


End RoundingFacts.

Section IscloseFacts.

Lemma leb_mul_rel_tol (s : bool) (m : positive) (e : Z) :
  valid_binary (S754_finite s m e) = true ->
  SFleb (S754_finite false m e)
    (SFabs (SF64mul (S754_finite false rel_tol_mantissa (-82)) (S754_finite s m e))) = false.
Proof.
  intros Hv. cbn [SpecFloat.valid_binary] in Hv.
  destruct (Z.le_gt_cases 2 (Zpos m)) as [H2|H1].
  - unfold SF64mul, SFmul.
    pose proof (mul_rel_tol_below (xorb false s) m e Hv H2) as Hc.
    destruct (binary_round_aux prec emax (xorb false s) (Zpos (rel_tol_mantissa * m)) (-82 + e) loc_Exact)
      as [s2|s2| |s2 m2 e2]; try contradiction; [reflexivity|].
    unfold SFleb, SFabs, SFcompare.
    destruct Hc as [Hlt|[-> Hlt]].
    + apply Z.lt_gt in Hlt. unfold Z.gt in Hlt. now rewrite Hlt.
    + rewrite Z.compare_refl.
      change (Pos.compare_cont Eq m m2) with (Pos.compare m m2).
      replace (m ?= m2)%positive with Gt; [reflexivity|].
      symmetry. apply Pos.compare_gt_iff. lia.
  - assert (m = 1%positive) by lia. subst m.
    unfold bounded, canonical_mantissa in Hv. apply andb_prop in Hv as [Hc _].
    apply Z.eqb_eq in Hc. unfold fexp, emin in Hc. cbn [digits2_pos] in Hc.
    change prec with 53%Z in Hc. change emax with 1024%Z in Hc.
    assert (e = -1074)%Z by lia. subst e.
    destruct s; vm_compute; reflexivity.
Qed.

(** Against [0.0] the default tolerances of [math.isclose] accept zero only. *)
Lemma isclose_zero (b : float) : isclose b 0 = (b =? 0).
Proof.
  unfold isclose. destruct (b =? 0) eqn:Ez; [reflexivity|].
  destruct (isinf b) eqn:Ei; [reflexivity|].
  change (isinf 0) with false. cbn [orb].
  rewrite !leb_spec, !abs_spec, !sub_spec, !mul_spec.
  rewrite FloatAxioms.eqb_spec in Ez. unfold isinf, is_infinity in Ei.
  rewrite FloatAxioms.eqb_spec, abs_spec in Ei.
  pose proof (Prim2SF_valid b) as Hv.
  change (Prim2SF 0) with (S754_zero false) in *.
  change (Prim2SF abs_tol) with (S754_zero false).
  change (Prim2SF rel_tol) with (S754_finite false rel_tol_mantissa (-82)).
  change (Prim2SF infinity) with (S754_infinity false) in Ei.
  destruct (Prim2SF b) as [s|s| |s m e].
  - discriminate.
  - discriminate.
  - reflexivity.
  - change (SFabs (SF64sub (S754_zero false) (S754_finite s m e)))
      with (S754_finite false m e).
    rewrite (leb_mul_rel_tol s m e Hv). reflexivity.
Qed.

(** [_safe_div] returns NaN when the denominator equals zero and the
    quotient otherwise. *)
Lemma safe_div_spec (a b : float) :
  _safe_div a b = if b =? 0 then nan else a / b.
Proof.
  unfold _safe_div. rewrite isclose_zero. now destruct (b =? 0).
Qed.

End IscloseFacts.

(** ** The fold of [compute_evm] *)

Section LoopFacts.

Lemma loop_snoc (rows : list EVMRow) (r : EVMRow) :
  loop (rows ++ [r]) = loop_body (loop rows) r.
Proof. unfold loop. now rewrite fold_left_app. Qed.

Lemma fold_cum (rows : list EVMRow) : forall st,
  cum_pv (fold_left loop_body rows st)
  = fold_left (fun acc r => acc + pv r) rows (cum_pv st) /\
  cum_ev (fold_left loop_body rows st)
  = fold_left (fun acc r => acc + ev r) rows (cum_ev st) /\
  cum_ac (fold_left loop_body rows st)
  = fold_left (fun acc r => acc + ac r) rows (cum_ac st).
Proof.
  induction rows as [|r rows IH]; intros st; simpl; [auto|].
  destruct (IH (loop_body st r)) as (Hp & He & Ha).
  rewrite Hp, He, Ha. auto.
Qed.

Lemma loop_totals (rows : list EVMRow) :
  cum_pv (loop rows) = total pv rows /\
  cum_ev (loop rows) = total ev rows /\
  cum_ac (loop rows) = total ac rows.
Proof. apply (fold_cum rows (mk_state 0 0 0 [])). Qed.

Lemma fold_out_length (rows : list EVMRow) : forall st,
  List.length (out (fold_left loop_body rows st))
  = (List.length (out st) + List.length rows)%nat.
Proof.
  induction rows as [|r rows IH]; intros st; simpl; [lia|].
  rewrite IH. simpl. rewrite length_app. simpl. lia.
Qed.

Lemma loop_out_length (rows : list EVMRow) :
  List.length (out (loop rows)) = List.length rows.
Proof. unfold loop. now rewrite fold_out_length. Qed.

Lemma last_of_snoc (l : list Detail.t) (d : Detail.t) : last_of (l ++ [d]) = Some d.
Proof. unfold last_of. now rewrite rev_unit. Qed.

Lemma loop_nil : loop [] = mk_state 0 0 0 [].
Proof. reflexivity. Qed.

(** After a non-empty ledger the last detail record holds the running totals
    of the whole ledger and the four metrics computed from them. *)
Lemma loop_last (rows : list EVMRow) :
  rows <> [] ->
  exists d,
    last_of (out (loop rows)) = Some d /\
    Detail.PV_cum d = total pv rows /\
    Detail.EV_cum d = total ev rows /\
    Detail.AC_cum d = total ac rows /\
    Detail.SV d = Detail.EV_cum d - Detail.PV_cum d /\
    Detail.CV d = Detail.EV_cum d - Detail.AC_cum d /\
    Detail.SPI d = _safe_div (Detail.EV_cum d) (Detail.PV_cum d) /\
    Detail.CPI d = _safe_div (Detail.EV_cum d) (Detail.AC_cum d).
Proof.
  intros Hne.
  destruct (exists_last Hne) as (rows' & r & ->).
  destruct (loop_totals (rows' ++ [r])) as (Hp & He & Ha).
  rewrite loop_snoc in *. unfold loop_body in *. simpl in *.
  rewrite last_of_snoc. eexists. split; [reflexivity|]. simpl.
  rewrite Hp, He, Ha. repeat split; reflexivity.
Qed.

Lemma guard_nan (x y : float) :
  (isnan x = true -> y = nan) -> (if negb (isnan x) then y else nan) = y.
Proof. destruct (isnan x); simpl; intros H; [symmetry; auto | reflexivity]. Qed.

Lemma guard_denom (c s : float) :
  (if negb (isnan c) && negb (isnan s) then c * s else nan) = c * s.
Proof.
  destruct (isnan c) eqn:Ec; simpl.
  - apply isnan_nan in Ec. subst c. now rewrite mul_nan_l.
  - destruct (isnan s) eqn:Es; simpl; [|reflexivity].
    apply isnan_nan in Es. subst s. now rewrite mul_nan_r.
Qed.

End LoopFacts.

(** ** C1: the forecast formulas *)

(** C1. For every non-empty ledger and BAC argument the forecasts of the
    summary are computed from the cumulative values of the final detail
    record: cost-only EAC = BAC / CPI, ETC = EAC - AC, VAC = BAC - EAC, and
    cost-times-schedule EAC = AC + (BAC - EV) / (CPI * SPI), ETC = EAC - AC,
    VAC = BAC - EAC, every ratio being taken by [_safe_div] (the quotient,
    unless the denominator is zero).  On the two-row
    ledger with BAC = 5000 the final cumulative PV, EV, AC are 2000, 2000,
    1950, SPI is 1.0, CPI is 2000/1950 (within 0.0001 of 1.0256), the
    cost-only EAC is 4875.0 and the VAC 125.0. *)
Theorem C1_forecast_formulas :
  (forall rows bac, rows <> [] -> forecasts_from_final rows bac) /\
  (let s := snd (compute_evm example_ledger (Some 5000)) in
   Summary.BAC s = 5000 /\
   Summary.PV_cum s = 2000 /\ Summary.EV_cum s = 2000 /\
   Summary.AC_cum s = 1950 /\
   Summary.SPI s = 1 /\ Summary.CPI s = 2000 / 1950 /\
   (abs (Summary.CPI s - 1.0256) <? 0.0001) = true /\
   Summary.EAC_CPI s = 4875 /\ Summary.VAC_CPI s = 125).
Proof.
  split.
  - intros rows bac Hne.
    destruct (loop_last rows Hne) as (d & Hlast & Hp & He & Ha & _ & _ & Hspi & Hcpi).
    exists d. unfold compute_evm. cbn [fst snd].
    rewrite Hlast. cbn [get Summary.BAC Summary.EAC_CPI Summary.ETC_CPI
      Summary.VAC_CPI Summary.EAC_CPI_SPI Summary.ETC_CPI_SPI Summary.VAC_CPI_SPI].
    set (BAC := match bac with Some b => b | None => Detail.PV_cum d end).
    rewrite guard_denom.
    assert (E1 : (if negb (isnan (Detail.CPI d)) then _safe_div BAC (Detail.CPI d) else nan)
                 = _safe_div BAC (Detail.CPI d)).
    { apply guard_nan. intros H. apply isnan_nan in H. rewrite H. apply safe_div_nan_r. }
    rewrite E1.
    assert (E2 : (if negb (isnan (Detail.CPI d * Detail.SPI d))
                  then Detail.AC_cum d
                       + _safe_div (BAC - Detail.EV_cum d) (Detail.CPI d * Detail.SPI d)
                  else nan)
                 = Detail.AC_cum d
                   + _safe_div (BAC - Detail.EV_cum d) (Detail.CPI d * Detail.SPI d)).
    { apply guard_nan. intros H. apply isnan_nan in H. rewrite H.
      rewrite safe_div_nan_r. apply add_nan_r. }
    rewrite E2.
    repeat (split; [first [assumption | reflexivity
      | apply guard_nan; intros H; apply isnan_nan in H; rewrite H;
        first [apply sub_nan_l | apply sub_nan_r]]|]).
    split; intros G; rewrite safe_div_spec, G; reflexivity.
  - vm_compute. repeat split; reflexivity.
Qed.

Lemma C1_forecast_formulas_witness :
  example_ledger <> [] /\ forecasts_from_final example_ledger (Some 5000).
Proof.
  split; [discriminate | apply (proj1 C1_forecast_formulas); discriminate].
Defined.

(** ** The guarded ratio, and what can raise *)

Lemma safe_div_never_raises (a b : float) : _safe_div_exn a b = Ok (_safe_div a b).
Proof.
  unfold _safe_div_exn, _safe_div, truediv.
  destruct (b =? 0); [reflexivity|]. cbn [orb].
  destruct (isclose b 0); reflexivity.
Qed.

Lemma safe_div_zero_denominator (a b : float) :
  (b =? 0) = true -> _safe_div a b = nan.
Proof. intros H. unfold _safe_div. now rewrite H. Qed.

Lemma safe_div_otherwise (a b : float) :
  (b =? 0) = false -> _safe_div a b = a / b.
Proof. intros H. now rewrite safe_div_spec, H. Qed.




Lemma fold_out_prefix (rows : list EVMRow) : forall st,
  exists l, out (fold_left loop_body rows st) = out st ++ l.
Proof.
  induction rows as [|r rows IH]; intros st; simpl.
  - exists []. now rewrite app_nil_r.
  - destruct (IH (loop_body st r)) as (l & ->). simpl.
    rewrite <- app_assoc. eauto.
Qed.

(** The detail record of the first row of a ledger. *)
Lemma first_detail (r : EVMRow) (rows : list EVMRow) (bac : option float) :
  hd_error (fst (compute_evm (r :: rows) bac))
  = Some (Detail.mk (date r) (pv r) (ev r) (ac r)
            (0 + pv r) (0 + ev r) (0 + ac r)
            ((0 + ev r) - (0 + pv r)) ((0 + ev r) - (0 + ac r))
            (_safe_div (0 + ev r) (0 + pv r))
            (_safe_div (0 + ev r) (0 + ac r))).
Proof.
  unfold compute_evm, loop. cbn [fst fold_left].
  destruct (fold_out_prefix rows (loop_body (mk_state 0 0 0 []) r)) as (l & ->).
  reflexivity.
Qed.

(** A ledger whose first cumulative PV is zero has the NaN sentinel as the
    SPI of its first detail record. *)
Lemma first_row_zero_pv (r : EVMRow) (rows : list EVMRow) (bac : option float) :
  (0 + pv r =? 0) = true ->
  exists d, hd_error (fst (compute_evm (r :: rows) bac)) = Some d /\
            Detail.PV_cum d = 0 + pv r /\ Detail.SPI d = nan.
Proof.
  intros H. rewrite first_detail. eexists. split; [reflexivity|].
  cbn [Detail.PV_cum Detail.SPI]. split; [reflexivity|].
  now apply safe_div_zero_denominator.
Qed.

(** ** C2: a denominator near zero *)

(** C2, at a denominator near zero.  [math.isclose(b, 0.0)] is called with
    its default tolerances, which are relative to the operands: it holds
    exactly when [b == 0], so [_safe_div] returns NaN for a zero denominator
    only and divides by every other one.  A denominator of 1e-12, and even
    the smallest positive binary64 number, is divided by; a ledger whose
    first PV is 1e-12 gets the SPI 1e12, not the NaN sentinel. *)
Theorem C2_safe_div_near_zero :
  (forall b, isclose b 0 = (b =? 0)) /\
  (forall a b, _safe_div a b = if b =? 0 then nan else a / b) /\
  (forall a b, _safe_div_exn a b = Ok (_safe_div a b)) /\
  isclose 1e-12 0 = false /\
  _safe_div 1 1e-12 = 1e12 /\
  isclose 0x1p-1074 0 = false /\
  _safe_div 1 0x1p-1074 = infinity /\
  option_map Detail.SPI
    (hd_error (fst (compute_evm
                      [mk_EVMRow (mk_datetime 2024 1 1) 1e-12 1 1] None)))
  = Some 1e12.
Proof.
  split; [exact isclose_zero|]. split; [exact safe_div_spec|].
  split; [exact safe_div_never_raises|].
  vm_compute. repeat split; reflexivity.
Qed.

(** ** C5: the budget at completion *)

(** C5, as stated, fails on the tag: with no BAC argument and a final
    cumulative PV of 100000 the BAC is 100000 but the provenance tag is not
    the string "inferred". *)
Lemma C5_tag_is_not_inferred :
  let s := snd (compute_evm ledger_100000 None) in
  Summary.PV_cum s = 100000 /\ Summary.BAC s = 100000 /\
  Summary.BAC_source s <> "inferred"%string.
Proof. vm_compute. repeat split; try reflexivity. discriminate. Qed.

(** C5, amended.  For every ledger and optional BAC argument: a supplied
    BAC is the BAC of the summary, with the tag "user"; without one the BAC
    is the cumulative PV of the final row (the running total of the PV
    column, which is 0.0 when the ledger is empty), with the tag
    "inferred_from_last_PV_cum".  With no BAC and a final cumulative PV of
    100000 the BAC is 100000 with that tag. *)
Theorem C5_bac_resolution :
  (forall rows bac,
     let s := snd (compute_evm rows bac) in
     match bac with
     | Some b =>
         Summary.BAC s = b /\ Summary.BAC_source s = "user"%string
     | None =>
         Summary.BAC s = Summary.PV_cum s /\
         (forall d, last_of (fst (compute_evm rows bac)) = Some d ->
                    Summary.BAC s = Detail.PV_cum d /\
                    Detail.PV_cum d = total pv rows) /\
         (rows = [] -> Summary.BAC s = 0) /\
         Summary.BAC_source s = "inferred_from_last_PV_cum"%string
     end) /\
  (let s := snd (compute_evm ledger_100000 None) in
   Summary.PV_cum s = 100000 /\ Summary.BAC s = 100000 /\
   Summary.BAC_source s = "inferred_from_last_PV_cum"%string).
Proof.
  split; [|vm_compute; repeat split; reflexivity].
  intros rows [b|]; cbn zeta.
  - split; reflexivity.
  - split; [reflexivity|]. split; [|split; [intros ->|]; reflexivity].
    intros d Hd. cbn [fst snd compute_evm] in *.
    unfold compute_evm in *. cbn [fst snd Summary.BAC] in *. rewrite Hd.
    split; [reflexivity|].
    destruct rows as [|r rows]; [discriminate|].
    destruct (loop_last (r :: rows)) as (d' & Hl & Hp & _); [discriminate|].
    congruence.
Qed.

Lemma C5_bac_resolution_witness :
  exists d,
    last_of (fst (compute_evm ledger_100000 None)) = Some d /\
    Summary.BAC (snd (compute_evm ledger_100000 None)) = Detail.PV_cum d /\
    Detail.PV_cum d = total pv ledger_100000.
Proof.
  eexists. split; [vm_compute; reflexivity|].
  apply (proj1 (proj2 (proj1 C5_bac_resolution ledger_100000 None))).
  vm_compute. reflexivity.
Defined.

(** ** C6: propagation of the NaN sentinel *)

(** C6. For every ledger and BAC: if the final CPI is NaN, the cost-only
    EAC, ETC and VAC are NaN; if the final CPI or the final SPI is NaN, the
    cost-times-schedule EAC, ETC and VAC are NaN. *)
Theorem C6_nan_propagates (rows : list EVMRow) (bac : option float) :
  let s := snd (compute_evm rows bac) in
  (isnan (Summary.CPI s) = true ->
   Summary.EAC_CPI s = nan /\ Summary.ETC_CPI s = nan /\ Summary.VAC_CPI s = nan /\
   isnan (Summary.EAC_CPI s) = true /\ isnan (Summary.ETC_CPI s) = true /\
   isnan (Summary.VAC_CPI s) = true) /\
  (isnan (Summary.CPI s) = true \/ isnan (Summary.SPI s) = true ->
   Summary.EAC_CPI_SPI s = nan /\ Summary.ETC_CPI_SPI s = nan /\
   Summary.VAC_CPI_SPI s = nan /\
   isnan (Summary.EAC_CPI_SPI s) = true /\ isnan (Summary.ETC_CPI_SPI s) = true /\
   isnan (Summary.VAC_CPI_SPI s) = true).
Proof.
  cbn zeta. unfold compute_evm. cbn [snd Summary.CPI Summary.SPI Summary.EAC_CPI
    Summary.ETC_CPI Summary.VAC_CPI Summary.EAC_CPI_SPI Summary.ETC_CPI_SPI
    Summary.VAC_CPI_SPI].
  set (cpi := get _ Detail.CPI nan). set (spi := get _ Detail.SPI nan).
  split.
  - intros H. rewrite H. cbn. repeat split; reflexivity.
  - intros H.
    assert (E : (negb (isnan cpi) && negb (isnan spi)) = false).
    { destruct H as [H|H]; rewrite H; [reflexivity|apply andb_false_r]. }
    rewrite E. cbn. repeat split; reflexivity.
Qed.

Lemma C6_nan_propagates_witness :
  let s := snd (compute_evm ledger_no_cost (Some 5000)) in
  isnan (Summary.CPI s) = true /\
  Summary.EAC_CPI s = nan /\ Summary.ETC_CPI s = nan /\ Summary.VAC_CPI s = nan /\
  isnan (Summary.EAC_CPI s) = true /\ isnan (Summary.ETC_CPI s) = true /\
  isnan (Summary.VAC_CPI s) = true.
Proof.
  split; [reflexivity|].
  apply (proj1 (C6_nan_propagates ledger_no_cost (Some 5000))). reflexivity.
Defined.

(** ** C7: the empty ledger *)



(** ** Facts on strings and on the numerals of [float()] *)

Section StrFacts.

Lemma count_cons (c x : ascii) (s : str) :
  count c (x :: s) = ((if Ascii.eqb c x then 1 else 0) + count c s)%nat.
Proof. unfold count. simpl. now destruct (Ascii.eqb c x). Qed.

Lemma count_app (c : ascii) (a b : str) :
  count c (a ++ b) = (count c a + count c b)%nat.
Proof. unfold count. now rewrite filter_app, length_app. Qed.

Lemma count_rev (c : ascii) (s : str) : count c (rev s) = count c s.
Proof.
  induction s as [|x s IH]; [reflexivity|].
  simpl rev. rewrite count_app, IH, !count_cons. unfold count at 2. simpl. lia.
Qed.

Lemma eqb_not_space (c x : ascii) :
  isspace c = false -> isspace x = true -> Ascii.eqb c x = false.
Proof.
  intros Hc Hx. destruct (Ascii.eqb_spec c x) as [->|]; [congruence|reflexivity].
Qed.

Lemma count_lstrip (c : ascii) (s : str) :
  isspace c = false -> count c (lstrip s) = count c s.
Proof.
  intros Hc. induction s as [|x s IH]; [reflexivity|].
  simpl lstrip. destruct (isspace x) eqn:Hx; [|reflexivity].
  rewrite count_cons, (eqb_not_space c x Hc Hx). exact IH.
Qed.

Lemma count_strip (c : ascii) (s : str) :
  isspace c = false -> count c (strip s) = count c s.
Proof.
  intros Hc. unfold strip, rstrip.
  now rewrite count_rev, count_lstrip, count_rev, count_lstrip.
Qed.

Lemma contains_count (c : ascii) (s : str) :
  contains c s = negb (Nat.eqb (count c s) 0).
Proof.
  induction s as [|x s IH]; [reflexivity|].
  unfold contains in *. simpl existsb. rewrite count_cons, IH.
  now destruct (Ascii.eqb c x).
Qed.

Lemma count_replace (c d : ascii) (s : str) :
  Ascii.eqb d c = false ->
  count d (replace_char c d s) = (count c s + count d s)%nat.
Proof.
  intros Hdc. induction s as [|x s IH]; [reflexivity|].
  unfold replace_char in *. simpl map. rewrite !count_cons, IH.
  destruct (Ascii.eqb_spec x c) as [->|Hx].
  - rewrite !Ascii.eqb_refl, Hdc. lia.
  - destruct (Ascii.eqb_spec c x) as [->|_]; [congruence|].
    destruct (Ascii.eqb d x); lia.
Qed.

Lemma span_digits_spec (s : str) : forall ds r,
  span_digits s = (ds, r) -> s = ds ++ r /\ forallb is_digit ds = true.
Proof.
  induction s as [|x s IH]; intros ds r; simpl.
  - intros [= <- <-]. auto.
  - destruct (is_digit x) eqn:Hx.
    + destruct (span_digits s) as [ds' r'] eqn:E. intros [= <- <-].
      destruct (IH ds' r' eq_refl) as (-> & Hd). simpl. rewrite Hx. auto.
    + intros [= <- <-]. auto.
Qed.

Lemma count_digits (c : ascii) (ds : str) :
  is_digit c = false -> forallb is_digit ds = true -> count c ds = O.
Proof.
  intros Hc. induction ds as [|x ds IH]; [reflexivity|].
  simpl. intros [Hx Hd]%andb_prop. rewrite count_cons, (IH Hd).
  destruct (Ascii.eqb_spec c x) as [->|]; [congruence|reflexivity].
Qed.

Lemma count_lower_dot (s : str) : count "." (lower s) = count "." s.
Proof.
  induction s as [|x s IH]; [reflexivity|].
  unfold lower in *. simpl map. rewrite !count_cons, IH. f_equal.
  destruct x as [[] [] [] [] [] [] [] []]; reflexivity.
Qed.

Lemma pystr_eqb_eq (a b : str) : PyStr.eqb a b = true -> a = b.
Proof. unfold PyStr.eqb. now destruct (list_eq_dec ascii_dec a b). Qed.

End StrFacts.

Section NumeralFacts.

Lemma drop_underscores_count (s : str) : forall prev u,
  drop_underscores prev s = Some u -> count "." u = count "." s.
Proof.
  induction s as [|c s IH]; intros prev u; simpl.
  - destruct (Ascii.eqb prev "_"); [discriminate|]. now intros [= <-].
  - destruct (Ascii.eqb_spec c "_") as [->|Hc].
    + destruct (is_digit prev); [|discriminate]. intros H.
      rewrite (IH _ _ H). now rewrite count_cons.
    + destruct (Ascii.eqb prev "_" && negb (is_digit c)); [discriminate|].
      destruct (drop_underscores c s) as [u'|] eqn:E; [|discriminate].
      simpl. intros [= <-]. now rewrite !count_cons, (IH _ _ E).
Qed.

Lemma parse_sign_count (s v : str) (neg : bool) :
  parse_sign s = (neg, v) -> count "." s = count "." v.
Proof.
  destruct s as [|c s]; simpl; [now intros [= _ <-]|].
  destruct (Ascii.eqb_spec c "-") as [->|]; [now intros [= _ <-]|].
  destruct (Ascii.eqb_spec c "+") as [->|]; now intros [= _ <-].
Qed.

Lemma parse_exponent_count (s : str) (e : Z) :
  parse_exponent s = Some e -> count "." s = O.
Proof.
  destruct s as [|c s]; simpl; [reflexivity|].
  destruct (Ascii.eqb c "e" || Ascii.eqb c "E") eqn:Hc; [|discriminate].
  destruct (parse_sign s) as [neg t] eqn:Hs.
  destruct (span_digits t) as [ds r] eqn:Hd.
  destruct ds as [|x ds]; [discriminate|]. destruct r; [|discriminate]. intros _.
  destruct (span_digits_spec _ _ _ Hd) as (-> & Hall).
  rewrite count_cons, (parse_sign_count _ _ _ Hs), app_nil_r.
  rewrite (count_digits "." _ eq_refl Hall).
  destruct (Ascii.eqb_spec "."%char c) as [<-|]; [discriminate|reflexivity].
Qed.

(** A numeral of [float()] holds at most one point. *)
Lemma parse_number_count (s : str) (me : Z * Z) :
  parse_number s = Some me -> (count "." s <= 1)%nat.
Proof.
  unfold parse_number.
  destruct (span_digits s) as [ip r1] eqn:Hi.
  destruct (span_digits_spec _ _ _ Hi) as (-> & Hip).
  rewrite count_app, (count_digits "." _ eq_refl Hip).
  destruct r1 as [|c t].
  - destruct (ip ++ []); [discriminate|]. intros _. cbn. lia.
  - destruct (Ascii.eqb_spec c ".") as [->|Hc].
    + destruct (span_digits t) as [fp r2] eqn:Hf.
      destruct (span_digits_spec _ _ _ Hf) as (-> & Hfp).
      destruct (ip ++ fp); [discriminate|].
      destruct (parse_exponent r2) as [e|] eqn:He; [|discriminate]. intros _.
      rewrite count_cons, count_app, (count_digits "." _ eq_refl Hfp),
        (parse_exponent_count _ _ He). simpl. lia.
    + destruct (ip ++ []); [discriminate|].
      destruct (parse_exponent (c :: t)) as [e|] eqn:He; [|discriminate]. intros _.
      rewrite (parse_exponent_count _ _ He). lia.
Qed.

(** [float()] accepts no text that holds two points. *)
Lemma py_float_two_points (s : str) :
  (2 <= count "." s)%nat -> py_float s = None.
Proof.
  intros H. unfold py_float.
  destruct (drop_underscores Ascii.zero (strip s)) as [u|] eqn:Hu; [|reflexivity].
  apply drop_underscores_count in Hu. rewrite (count_strip "." s eq_refl) in Hu.
  destruct (parse_sign u) as [neg v] eqn:Hv.
  apply parse_sign_count in Hv.
  assert (Hc : (2 <= count "." v)%nat) by lia.
  rewrite <- count_lower_dot in Hc.
  destruct (PyStr.eqb (lower v) "inf") eqn:E1;
    [apply pystr_eqb_eq in E1; rewrite E1 in Hc; cbn in Hc; lia|].
  destruct (PyStr.eqb (lower v) "infinity") eqn:E2;
    [apply pystr_eqb_eq in E2; rewrite E2 in Hc; cbn in Hc; lia|].
  destruct (PyStr.eqb (lower v) "nan") eqn:E3;
    [apply pystr_eqb_eq in E3; rewrite E3 in Hc; cbn in Hc; lia|].
  cbn [orb]. rewrite count_lower_dot in Hc.
  destruct (parse_number v) as [[m e]|] eqn:Hn; [|reflexivity].
  apply parse_number_count in Hn. lia.
Qed.

End NumeralFacts.

(** ** Facts on the reading loop *)

Section ReaderFacts.

Lemma parse_date_bad (d : str) :
  date_is_bad d = true -> _parse_date d = Err (DateFormatError d).
Proof.
  unfold date_is_bad, _parse_date, date_formats. cbn [forallb try_formats].
  destruct (strptime (strip d) "%Y-%m-%d"); [discriminate|].
  destruct (strptime (strip d) "%d/%m/%Y"); [discriminate|].
  destruct (strptime (strip d) "%Y/%m/%d"); [discriminate|reflexivity].
Qed.

Lemma parse_date_good (d : str) :
  date_is_bad d = false -> exists dt, _parse_date d = Ok dt.
Proof.
  unfold date_is_bad, _parse_date, date_formats. cbn [forallb try_formats].
  destruct (strptime (strip d) "%Y-%m-%d"); [eauto|].
  destruct (strptime (strip d) "%d/%m/%Y"); [eauto|].
  destruct (strptime (strip d) "%Y/%m/%d"); [eauto|discriminate].
Qed.

Lemma to_float_err (x : str) (e : exn) :
  _to_float x = Err e -> e = FloatValueError (normalize_separators (strip x)).
Proof.
  unfold _to_float, float_of_str. destruct (strip x); [discriminate|].
  destruct (py_float _); [discriminate|]. now intros [= <-].
Qed.

Lemma amount_bad_cases (x : str) :
  amount_is_bad x = true ->
  _to_float x = Err (FloatValueError (normalize_separators (strip x)))
  \/ _to_float x = Ok nan.
Proof.
  unfold amount_is_bad. destruct (_to_float x) as [v|e] eqn:E.
  - intros H. right. now rewrite (isnan_nan v H).
  - intros _. left. now rewrite (to_float_err x e E).
Qed.

Lemma amount_good (x : str) :
  amount_is_bad x = false -> exists v, _to_float x = Ok v /\ isnan v = false.
Proof.
  unfold amount_is_bad. destruct (_to_float x) as [v|e]; [eauto|discriminate].
Qed.

Lemma parse_row_bad (i : Z) (r : RawRow.t) :
  row_is_bad r = true -> exists e, parse_row i r = Err e /\ diagnostic_of i r e.
Proof.
  unfold row_is_bad, parse_row. intros H.
  destruct (date_is_bad (RawRow.Date r)) eqn:Hd.
  { rewrite (parse_date_bad _ Hd). cbn. eexists. split; [reflexivity|].
    now constructor. }
  destruct (parse_date_good _ Hd) as (dt & ->). cbn [bind].
  destruct (amount_is_bad (RawRow.PV r)) eqn:Hp.
  { destruct (amount_bad_cases _ Hp) as [E|E].
    - rewrite E. cbn. eexists. split; [reflexivity|].
      apply diag_float; [cbn; auto|exact E].
    - rewrite E. cbn [bind].
      destruct (_to_float (RawRow.EV r)) as [ve|ee] eqn:Ee; cbn [bind].
      + destruct (_to_float (RawRow.AC r)) as [va|ea] eqn:Ea; cbn [bind].
        * cbn. eexists. split; [reflexivity|].
          apply (diag_nan i r (RawRow.PV r)); [cbn; auto|exact E].
        * eexists. split; [reflexivity|]. rewrite (to_float_err _ _ Ea).
          apply diag_float; [cbn; auto|]. now rewrite <- (to_float_err _ _ Ea).
      + eexists. split; [reflexivity|]. rewrite (to_float_err _ _ Ee).
        apply diag_float; [cbn; auto|]. now rewrite <- (to_float_err _ _ Ee). }
  destruct (amount_good _ Hp) as (vp & -> & Hvp). cbn [bind].
  destruct (amount_is_bad (RawRow.EV r)) eqn:He.
  { destruct (amount_bad_cases _ He) as [E|E].
    - rewrite E. cbn. eexists. split; [reflexivity|].
      apply diag_float; [cbn; auto|exact E].
    - rewrite E. cbn [bind].
      destruct (_to_float (RawRow.AC r)) as [va|ea] eqn:Ea; cbn [bind].
      + cbn [pv ev ac existsb]. rewrite Hvp. cbn. eexists. split; [reflexivity|].
        apply (diag_nan i r (RawRow.EV r)); [cbn; auto|exact E].
      + eexists. split; [reflexivity|]. rewrite (to_float_err _ _ Ea).
        apply diag_float; [cbn; auto|]. now rewrite <- (to_float_err _ _ Ea). }
  destruct (amount_good _ He) as (ve & -> & Hve). cbn [bind].
  cbn in H. destruct (amount_bad_cases _ H) as [E|E].
  - rewrite E. cbn. eexists. split; [reflexivity|].
    apply diag_float; [cbn; auto|exact E].
  - rewrite E. cbn [bind pv ev ac existsb]. rewrite Hvp, Hve. cbn.
    eexists. split; [reflexivity|].
    apply (diag_nan i r (RawRow.AC r)); [cbn; auto|exact E].
Qed.

Lemma parse_row_ok (i : Z) (r : RawRow.t) (row : EVMRow) :
  parse_row i r = Ok row -> row_of r row /\ row_is_bad r = false.
Proof.
  unfold parse_row.
  destruct (_parse_date (RawRow.Date r)) as [dt|] eqn:Ed; [|discriminate].
  destruct (_to_float (RawRow.PV r)) as [vp|] eqn:Ep; [|discriminate].
  destruct (_to_float (RawRow.EV r)) as [ve|] eqn:Ee; [|discriminate].
  destruct (_to_float (RawRow.AC r)) as [va|] eqn:Ea; [|discriminate].
  cbn [bind pv ev ac existsb].
  destruct (isnan vp) eqn:Hp; [discriminate|].
  destruct (isnan ve) eqn:He; [discriminate|].
  destruct (isnan va) eqn:Ha; [discriminate|].
  cbn. intros [= <-]. cbn. split; [now repeat split|].
  unfold row_is_bad, amount_is_bad. rewrite Ep, Ee, Ea, Hp, He, Ha.
  destruct (date_is_bad (RawRow.Date r)) eqn:Hd; [|reflexivity].
  rewrite (parse_date_bad _ Hd) in Ed. discriminate.
Qed.

Lemma parse_row_good (i : Z) (r : RawRow.t) :
  row_is_bad r = false -> exists row, parse_row i r = Ok row.
Proof.
  intros H. destruct (parse_row i r) as [row|e] eqn:E; [eauto|].
  exfalso. unfold row_is_bad in H.
  apply orb_false_elim in H as (H & Ha). apply orb_false_elim in H as (H & He).
  apply orb_false_elim in H as (Hd & Hp).
  destruct (parse_date_good _ Hd) as (dt & Edt).
  destruct (amount_good _ Hp) as (vp & Evp & Hvp).
  destruct (amount_good _ He) as (ve & Eve & Hve).
  destruct (amount_good _ Ha) as (va & Eva & Hva).
  unfold parse_row in E. rewrite Edt, Evp, Eve, Eva in E.
  cbn in E. rewrite Hvp, Hve, Hva in E. discriminate.
Qed.

(** The loop stops at the first bad record, with the exception of that
    record, numbered from [i]. *)
Lemma read_rows_first_bad (reader : list RawRow.t) : forall i acc,
  existsb row_is_bad reader = true ->
  exists k r e,
    nth_error reader k = Some r /\ row_is_bad r = true /\
    existsb row_is_bad (firstn k reader) = false /\
    parse_row (i + Z.of_nat k)%Z r = Err e /\
    read_rows i reader acc = Err e.
Proof.
  induction reader as [|r reader IH]; intros i acc; cbn [existsb]; [discriminate|].
  destruct (row_is_bad r) eqn:Hr; cbn [orb].
  - intros _. destruct (parse_row_bad i r Hr) as (e & He & _).
    exists O, r, e. cbn [nth_error firstn existsb read_rows].
    rewrite Z.add_0_r, He. auto.
  - intros H. destruct (parse_row_good i r Hr) as (row & Hrow).
    destruct (IH (i + 1)%Z (acc ++ [row]) H) as (k & r' & e & Hn & Hb & Hf & Hp & Hre).
    exists (S k), r', e. cbn [nth_error firstn existsb read_rows].
    rewrite Hr, Hrow. cbn [bind orb].
    replace (i + Z.of_nat (S k))%Z with (i + 1 + Z.of_nat k)%Z by lia. auto.
Qed.

Lemma read_rows_ok (reader : list RawRow.t) : forall i acc rows,
  read_rows i reader acc = Ok rows ->
  exists rows', rows = acc ++ rows' /\ Forall2 row_of reader rows'.
Proof.
  induction reader as [|r reader IH]; intros i acc rows; cbn [read_rows].
  - intros [= <-]. exists []. now rewrite app_nil_r.
  - destruct (parse_row i r) as [row|] eqn:Hrow; [|discriminate]. cbn [bind].
    intros H. destruct (IH _ _ _ H) as (rows' & -> & HF).
    exists (row :: rows'). rewrite <- app_assoc. split; [reflexivity|].
    constructor; [|exact HF]. now apply parse_row_ok in Hrow.
Qed.

Lemma insert_by_date_perm (x : EVMRow) (l : list EVMRow) :
  Permutation (insert_by_date x l) (x :: l).
Proof.
  induction l as [|y l IH]; cbn; [reflexivity|].
  destruct (date_leb (date y) (date x)); [|reflexivity].
  rewrite IH. apply perm_swap.
Qed.

Lemma sort_by_date_perm (l : list EVMRow) : Permutation (sort_by_date l) l.
Proof.
  unfold sort_by_date.
  enough (H : forall acc, Permutation (fold_left (fun s x => insert_by_date x s) l acc)
                            (acc ++ l)) by apply (H []).
  induction l as [|x l IH]; intros acc; cbn.
  - now rewrite app_nil_r.
  - rewrite IH, insert_by_date_perm. now rewrite <- Permutation_middle.
Qed.

End ReaderFacts.

(** ** C3: separators of an amount *)

(** C3. With [s] the stripped text: when [s] holds a comma and a point, the
    one that occurs last is the decimal point and every occurrence of the
    other is removed; when it holds commas only, each comma becomes a point;
    otherwise [s] is read as it is.  The empty text gives NaN, and a record
    with an empty amount is rejected.  "12,345.67" and "12.345,67" give
    12345.67, and "1234,56" gives 1234.56. *)
Theorem C3_to_float_separators :
  (forall x : str,
     let s := strip x in
     match s with
     | [] => _to_float x = Ok nan
     | _ =>
         _to_float x = float_of_str (normalize_separators s) /\
         normalize_separators s
         = match contains "," s, contains "." s with
           | true, true =>
               if (rfind "." s <? rfind "," s)%Z
               then replace_char "," "." (remove_char "." s)
               else remove_char "," s
           | true, false => replace_char "," "." s
           | false, _ => s
           end
     end) /\
  _to_float "12,345.67" = Ok 12345.67 /\
  _to_float "12.345,67" = Ok 12345.67 /\
  _to_float "1234,56" = Ok 1234.56 /\
  _to_float "1234.56" = Ok 1234.56 /\
  _to_float "" = Ok nan /\
  (forall (i : Z) (r : RawRow.t),
     In ("" : str) [RawRow.PV r; RawRow.EV r; RawRow.AC r] ->
     exists e, parse_row i r = Err e) /\
  (forall (reader : list RawRow.t) (r : RawRow.t),
     In r reader ->
     In ("" : str) [RawRow.PV r; RawRow.EV r; RawRow.AC r] ->
     exists e, read_evm_csv reader = Err e).
Proof.
  assert (Hbad : forall r : RawRow.t,
             In ("" : str) [RawRow.PV r; RawRow.EV r; RawRow.AC r] ->
             row_is_bad r = true).
  { intros r Hin. unfold row_is_bad.
    destruct Hin as [H|[H|[H|[]]]]; rewrite H;
      change (amount_is_bad (of_string "")) with true;
      rewrite ?orb_true_r; reflexivity. }
  split; [|do 5 (split; [vm_compute; reflexivity|]); split].
  - intros x. cbn zeta. unfold _to_float.
    destruct (strip x) as [|c s] eqn:E; [reflexivity|].
    split; [reflexivity|]. unfold normalize_separators.
    rewrite Z.gtb_ltb.
    destruct (contains "," (c :: s)), (contains "." (c :: s)); reflexivity.
  - intros i r Hin. destruct (parse_row_bad i r (Hbad r Hin)) as (e & He & _). eauto.
  - intros reader r Hr Hin.
    assert (Hex : existsb row_is_bad reader = true).
    { apply existsb_exists. exists r. auto. }
    destruct (read_rows_first_bad reader 2 [] Hex) as (k & r' & e & _ & _ & _ & _ & He).
    exists e. unfold read_evm_csv. now rewrite He.
Qed.

Lemma C3_to_float_separators_witness :
  exists e,
    read_evm_csv [RawRow.mk "2024-01-01" "1000" "" "950"] = Err e.
Proof.
  apply (proj2 (proj2 (proj2 (proj2 (proj2 (proj2 (proj2
           C3_to_float_separators))))))
           [RawRow.mk "2024-01-01" "1000" "" "950"]
           (RawRow.mk "2024-01-01" "1000" "" "950")).
  - left. reflexivity.
  - right. left. reflexivity.
Defined.

(** ** C4: the formats of a date *)

(** C4. [_parse_date] tries the three formats YYYY-MM-DD, DD/MM/YYYY and
    YYYY/MM/DD in this order on the stripped text and returns the first
    parse; when the three fail it raises the error that names the text it was
    given.  "03/04/2024" is the 3rd of April 2024. *)
Theorem C4_parse_date_priority (d : str) :
  date_formats = ["%Y-%m-%d" : str; "%d/%m/%Y" : str; "%Y/%m/%d" : str] /\
  _parse_date d
  = match strptime (strip d) "%Y-%m-%d" with
    | Some dt => Ok dt
    | None =>
        match strptime (strip d) "%d/%m/%Y" with
        | Some dt => Ok dt
        | None =>
            match strptime (strip d) "%Y/%m/%d" with
            | Some dt => Ok dt
            | None => Err (DateFormatError d)
            end
        end
    end /\
  _parse_date "03/04/2024" = Ok (mk_datetime 2024 4 3) /\
  _parse_date "03/04/2024" <> Ok (mk_datetime 2024 3 4) /\
  _parse_date "2024-03-04" = Ok (mk_datetime 2024 3 4) /\
  _parse_date "2024/03/04" = Ok (mk_datetime 2024 3 4) /\
  _parse_date " 04.03.2024 " = Err (DateFormatError " 04.03.2024 ").
Proof.
  split; [reflexivity|]. split.
  - unfold _parse_date, date_formats. cbn [try_formats].
    destruct (strptime (strip d) "%Y-%m-%d"); [reflexivity|].
    destruct (strptime (strip d) "%d/%m/%Y"); [reflexivity|].
    destruct (strptime (strip d) "%Y/%m/%d"); reflexivity.
  - repeat split; try (vm_compute; reflexivity). vm_compute. discriminate.
Qed.

(** Day first, for every day and month of 2024 written with two digits each:
    the text is read as that day of that month when the month has such a
    day, and is refused otherwise. *)
Lemma parse_date_day_first_2024 :
  forall d m, In d (map Z.of_nat (seq 1 31)) -> In m (map Z.of_nat (seq 1 12)) ->
    _parse_date (slash_date_2024 d m)
    = if (d <=? days_in_month 2024 m)%Z then Ok (mk_datetime 2024 m d)
      else Err (DateFormatError (slash_date_2024 d m)).
Proof.
  intros d m Hd Hm.
  cbn in Hd, Hm.
  repeat (destruct Hd as [<-|Hd]; [|try contradiction]);
  repeat (destruct Hm as [<-|Hm]; [vm_compute; reflexivity|try contradiction]).
Qed.

(** ** C8: the amounts of a ledger row *)

(** C8, as stated, fails on finiteness: the text "inf" (or a numeral beyond
    the binary64 range, or "-Infinity") is a float for [float()], it is not
    NaN, and the record is accepted with infinite amounts, which reach the
    engine. *)
Lemma C8_infinite_amount_accepted :
  read_evm_csv [RawRow.mk "2024-01-01" "inf" "1e999" "-Infinity"]
  = Ok [mk_EVMRow (mk_datetime 2024 1 1) infinity infinity neg_infinity] /\
  is_finite infinity = false /\ is_finite neg_infinity = false /\
  exists out s,
    main [RawRow.mk "2024-01-01" "inf" "1e999" "-Infinity"] None = Ok (out, s) /\
    Summary.PV_cum s = infinity.
Proof.
  split; [vm_compute; reflexivity|]. split; [reflexivity|]. split; [reflexivity|].
  eexists. eexists. split; [vm_compute; reflexivity|reflexivity].
Qed.

(** C8, amended.  When the reader returns a ledger, its rows are the
    records in some order, one row for each record; the three amounts of a
    row are what [_to_float] returns on the three cells of its record, and
    none of them is NaN (an amount may be infinite).  A record with an
    amount that parses to NaN is rejected: the reader and the whole run end
    in an error. *)
Theorem C8_amounts_not_nan (reader : list RawRow.t) :
  (forall rows,
     read_evm_csv reader = Ok rows ->
     List.length rows = List.length reader /\
     Forall (fun row =>
               isnan (pv row) = false /\ isnan (ev row) = false /\
               isnan (ac row) = false /\
               exists r, In r reader /\ row_of r row) rows) /\
  (forall r x bac,
     In r reader ->
     In x [RawRow.PV r; RawRow.EV r; RawRow.AC r] ->
     _to_float x = Ok nan ->
     exists e, read_evm_csv reader = Err e /\ main reader bac = Err e).
Proof.
  split.
  - intros rows. unfold read_evm_csv.
    destruct (read_rows 2 reader []) as [rows0|] eqn:E; [|discriminate].
    cbn [bind]. intros [= <-].
    destruct (read_rows_ok _ _ _ _ E) as (rows' & -> & HF). cbn [app] in *.
    split.
    + rewrite (Permutation_length (sort_by_date_perm rows')).
      symmetry. eapply Forall2_length; eauto.
    + apply Forall_forall. intros row Hin.
      apply (Permutation_in _ (sort_by_date_perm rows')) in Hin.
      clear E. induction HF as [|r row' reader rows' Hrow HF IH]; [destruct Hin|].
      destruct Hin as [<-|Hin].
      * destruct Hrow as (Hd & Hp & He & Ha & Np & Ne & Na).
        repeat split; auto. exists r. split; [now left|]. repeat split; auto.
      * destruct (IH Hin) as (Np & Ne & Na & r' & Hr' & Hrow').
        repeat split; auto. exists r'. split; [now right|exact Hrow'].
  - intros r x bac Hr Hx Hnan.
    assert (Hb : row_is_bad r = true).
    { assert (Hx' : amount_is_bad x = true)
        by (unfold amount_is_bad; rewrite Hnan; reflexivity).
      unfold row_is_bad.
      destruct Hx as [<-|[<-|[<-|[]]]]; rewrite Hx', ?orb_true_r; reflexivity. }
    assert (Hex : existsb row_is_bad reader = true).
    { apply existsb_exists. exists r. auto. }
    destruct (read_rows_first_bad reader 2 [] Hex) as (k & r' & e & _ & _ & _ & _ & He).
    exists e. unfold main, read_evm_csv. rewrite He. auto.
Qed.

Lemma C8_amounts_not_nan_witness :
  read_evm_csv [RawRow.mk "2024-01-01" "1000" "900" "950"]
  = Ok [mk_EVMRow (mk_datetime 2024 1 1) 1000 900 950] /\
  List.length [mk_EVMRow (mk_datetime 2024 1 1) 1000 900 950] = 1%nat /\
  Forall (fun row =>
            isnan (pv row) = false /\ isnan (ev row) = false /\
            isnan (ac row) = false /\
            exists r, In r [RawRow.mk "2024-01-01" "1000" "900" "950"] /\ row_of r row)
    [mk_EVMRow (mk_datetime 2024 1 1) 1000 900 950].
Proof.
  split; [vm_compute; reflexivity|].
  apply (proj1 (C8_amounts_not_nan [RawRow.mk "2024-01-01" "1000" "900" "950"])).
  vm_compute. reflexivity.
Defined.

(** ** C9: one bad record aborts the run *)

(** C9, as stated, fails on the offending field: a record whose PV cell is
    not a number and a record whose EV cell is the same text raise the same
    exception, which carries the row number 2 (the first record counts as
    row 2) and the refused text, and nothing that tells the columns apart. *)
Lemma C9_diagnostic_same_for_two_fields :
  amount_is_bad "abc" = true /\ amount_is_bad "1" = false /\
  read_evm_csv [RawRow.mk "2024-01-01" "abc" "1" "1"]
  = Err (RowParseError 2 (FloatValueError "abc")) /\
  read_evm_csv [RawRow.mk "2024-01-01" "1" "abc" "1"]
  = Err (RowParseError 2 (FloatValueError "abc")).
Proof. vm_compute. repeat split; reflexivity. Qed.

(** C9, amended.  When some record of the input has a date that none of the
    three formats parses, or a PV, EV or AC cell on which [_to_float] raises
    or returns NaN, the reader and the whole run end in the exception of the
    first such record: no table and no summary come out.  The exception
    carries the number of that record, counted from 2 for the first record,
    and either the unrecognized date text, or the rewritten text of the first
    amount that [float()] refused, or the whole record. *)
Theorem C9_bad_row_aborts (reader : list RawRow.t) (bac : option float) :
  existsb row_is_bad reader = true ->
  exists (k : nat) (r : RawRow.t) (e : exn),
    nth_error reader k = Some r /\
    row_is_bad r = true /\
    existsb row_is_bad (firstn k reader) = false /\
    diagnostic_of (Z.of_nat k + 2) r e /\
    read_evm_csv reader = Err e /\
    main reader bac = Err e.
Proof.
  intros H.
  destruct (read_rows_first_bad reader 2 [] H) as (k & r & e & Hn & Hb & Hf & Hp & He).
  exists k, r, e. repeat split; auto.
  - destruct (parse_row_bad (2 + Z.of_nat k) r Hb) as (e' & He' & Hd).
    rewrite Z.add_comm. congruence.
  - unfold read_evm_csv. now rewrite He.
  - unfold main, read_evm_csv. now rewrite He.
Qed.

Lemma C9_bad_row_aborts_witness :
  existsb row_is_bad reader_bad_third = true /\
  exists (k : nat) (r : RawRow.t) (e : exn),
    nth_error reader_bad_third k = Some r /\
    row_is_bad r = true /\
    existsb row_is_bad (firstn k reader_bad_third) = false /\
    diagnostic_of (Z.of_nat k + 2) r e /\
    read_evm_csv reader_bad_third = Err e /\
    main reader_bad_third None = Err e.
Proof.
  split; [vm_compute; reflexivity|].
  apply (C9_bad_row_aborts reader_bad_third None). vm_compute. reflexivity.
Defined.

(** The exception of [reader_bad_third]: its third record is row 4. *)
Lemma reader_bad_third_error :
  main reader_bad_third None
  = Err (RowParseError 4 (DateFormatError "2024-13-01")).
Proof. vm_compute. reflexivity. Qed.

(** ** C10: grouped integers with commas only *)

(** C10. On a text with two or more commas and no point, each comma becomes
    a point, [float()] refuses the result, and [_to_float] raises; a record
    with such an amount is rejected, and the reader and the run end in an
    error.  "1,234,567" is such a text. *)
Theorem C10_commas_only_rejected (x : str) :
  (2 <= count "," x)%nat ->
  contains "." x = false ->
  _to_float x = Err (FloatValueError (replace_char "," "." (strip x))) /\
  (forall i r,
     In x [RawRow.PV r; RawRow.EV r; RawRow.AC r] ->
     exists e, parse_row i r = Err e) /\
  (forall reader r bac,
     In r reader ->
     In x [RawRow.PV r; RawRow.EV r; RawRow.AC r] ->
     exists e, read_evm_csv reader = Err e /\ main reader bac = Err e).
Proof.
  intros Hc Hp.
  assert (Hc' : (2 <= count "," (strip x))%nat)
    by now rewrite (count_strip "," x eq_refl).
  assert (Hp' : count "." (strip x) = O).
  { rewrite (count_strip "." x eq_refl). rewrite contains_count in Hp.
    destruct (count "." x); [reflexivity|discriminate]. }
  assert (Hn : normalize_separators (strip x) = replace_char "," "." (strip x)).
  { unfold normalize_separators. rewrite !contains_count, Hp'.
    destruct (count "," (strip x)); [lia|reflexivity]. }
  assert (E : _to_float x = Err (FloatValueError (replace_char "," "." (strip x)))).
  { unfold _to_float. destruct (strip x) as [|c s] eqn:Es; [cbn in Hc'; lia|].
    rewrite Hn. unfold float_of_str. rewrite py_float_two_points; [reflexivity|].
    rewrite count_replace by reflexivity. lia. }
  assert (Hbad : forall r, In x [RawRow.PV r; RawRow.EV r; RawRow.AC r] ->
                           row_is_bad r = true).
  { intros r Hin.
    assert (Hx : amount_is_bad x = true) by (unfold amount_is_bad; now rewrite E).
    unfold row_is_bad.
    destruct Hin as [<-|[<-|[<-|[]]]]; rewrite Hx, ?orb_true_r; reflexivity. }
  split; [exact E|]. split.
  - intros i r Hin. destruct (parse_row_bad i r (Hbad r Hin)) as (e & He & _). eauto.
  - intros reader r bac Hr Hin.
    assert (Hex : existsb row_is_bad reader = true).
    { apply existsb_exists. exists r. auto. }
    destruct (read_rows_first_bad reader 2 [] Hex) as (k & r' & e & _ & _ & _ & _ & He).
    exists e. unfold main, read_evm_csv. rewrite He. auto.
Qed.

Lemma C10_commas_only_rejected_witness :
  (2 <= count "," "1,234,567")%nat /\
  contains "." "1,234,567" = false /\
  _to_float "1,234,567" = Err (FloatValueError "1.234.567").
Proof.
  split; [vm_compute; lia|]. split; [reflexivity|].
  apply (proj1 (C10_commas_only_rejected "1,234,567"
                  ltac:(vm_compute; lia) eq_refl)).
Defined.

(** * Further properties *)

(** ** The order of the ledger *)

Section SortFacts.

Local Open Scope Z_scope.

Lemma date_leb_total (a b : datetime) : date_leb a b = false -> date_leb b a = true.
Proof.
  unfold date_leb. destruct a as [ya ma da], b as [yb mb db]. cbn [year month day].
  destruct (ya <? yb) eqn:E1, (ya =? yb) eqn:E2, (ma <? mb) eqn:E3,
    (ma =? mb) eqn:E4, (da <=? db) eqn:E5; cbn; try discriminate; intros _;
  destruct (yb <? ya) eqn:F1, (yb =? ya) eqn:F2, (mb <? ma) eqn:F3,
    (mb =? ma) eqn:F4, (db <=? da) eqn:F5; cbn; try reflexivity; lia.
Qed.

Lemma date_leb_trans (a b c : datetime) :
  date_leb a b = true -> date_leb b c = true -> date_leb a c = true.
Proof.
  unfold date_leb. destruct a as [ya ma da], b as [yb mb db], c as [yc mc dc].
  cbn [year month day].
  destruct (ya <? yb) eqn:E1, (ya =? yb) eqn:E2, (ma <? mb) eqn:E3,
    (ma =? mb) eqn:E4, (da <=? db) eqn:E5; cbn; try discriminate; intros _;
  destruct (yb <? yc) eqn:F1, (yb =? yc) eqn:F2, (mb <? mc) eqn:F3,
    (mb =? mc) eqn:F4, (db <=? dc) eqn:F5; cbn; try discriminate; intros _;
  destruct (ya <? yc) eqn:G1, (ya =? yc) eqn:G2, (ma <? mc) eqn:G3,
    (ma =? mc) eqn:G4, (da <=? dc) eqn:G5; cbn; try reflexivity; lia.
Qed.

Lemma date_leb_antisym (a b : datetime) :
  date_leb a b = true -> date_leb b a = true -> a = b.
Proof.
  unfold date_leb. destruct a as [ya ma da], b as [yb mb db]. cbn [year month day].
  destruct (ya <? yb) eqn:E1, (ya =? yb) eqn:E2, (ma <? mb) eqn:E3,
    (ma =? mb) eqn:E4, (da <=? db) eqn:E5; cbn; try discriminate; intros _;
  destruct (yb <? ya) eqn:F1, (yb =? ya) eqn:F2, (mb <? ma) eqn:F3,
    (mb =? ma) eqn:F4, (db <=? da) eqn:F5; cbn; try discriminate; intros _;
  try lia; f_equal; lia.
Qed.

Lemma date_eqb_eq (a b : datetime) : date_eqb a b = true <-> a = b.
Proof.
  unfold date_eqb. destruct a as [ya ma da], b as [yb mb db]. cbn [year month day].
  split.
  - intros H. apply andb_prop in H as [H Hd]. apply andb_prop in H as [Hy Hm].
    f_equal; lia.
  - intros [= -> -> ->]. now rewrite !Z.eqb_refl.
Qed.

Lemma insert_by_date_in (x y : EVMRow) (l : list EVMRow) :
  In y (insert_by_date x l) <-> y = x \/ In y l.
Proof.
  split; intros H.
  - apply (Permutation_in _ (insert_by_date_perm x l)) in H.
    destruct H as [<-|H]; auto.
  - apply (Permutation_in _ (Permutation_sym (insert_by_date_perm x l))).
    destruct H as [->|H]; [now left|now right].
Qed.

Lemma insert_by_date_sorted (x : EVMRow) (l : list EVMRow) :
  StronglySorted by_date l -> StronglySorted by_date (insert_by_date x l).
Proof.
  induction l as [|y l IH]; intros Hs; cbn [insert_by_date].
  - repeat constructor.
  - apply StronglySorted_inv in Hs as [Hs Hy].
    destruct (date_leb (date y) (date x)) eqn:E.
    + constructor; [auto|]. apply Forall_forall. intros z Hz.
      apply insert_by_date_in in Hz as [->|Hz]; [exact E|].
      rewrite Forall_forall in Hy. auto.
    + apply date_leb_total in E. constructor; [constructor; auto|].
      constructor; [exact E|]. apply Forall_forall. intros z Hz.
      rewrite Forall_forall in Hy. unfold by_date in *.
      eapply date_leb_trans; [exact E|auto].
Qed.

Lemma fold_insert_sorted (l : list EVMRow) : forall acc,
  StronglySorted by_date acc ->
  StronglySorted by_date (fold_left (fun s x => insert_by_date x s) l acc).
Proof.
  induction l as [|x l IH]; intros acc H; cbn [fold_left]; [exact H|].
  apply IH. now apply insert_by_date_sorted.
Qed.

Lemma sort_by_date_sorted (l : list EVMRow) : StronglySorted by_date (sort_by_date l).
Proof. apply fold_insert_sorted. constructor. Qed.

(** A row goes after the rows of its date that are there already. *)
Lemma rows_on_insert (d : datetime) (x : EVMRow) (l : list EVMRow) :
  StronglySorted by_date l ->
  rows_on d (insert_by_date x l)
  = rows_on d l ++ (if date_eqb (date x) d then [x] else []).
Proof.
  unfold rows_on. induction l as [|y l IH]; intros Hs; cbn [insert_by_date filter].
  - reflexivity.
  - apply StronglySorted_inv in Hs as [Hs Hy].
    destruct (date_leb (date y) (date x)) eqn:E; cbn [filter].
    + rewrite (IH Hs). now destruct (date_eqb (date y) d).
    + destruct (date_eqb (date x) d) eqn:Ex; [|now rewrite app_nil_r].
      apply date_eqb_eq in Ex.
      assert (Hnone : forall z, In z (y :: l) -> date_eqb (date z) d = false).
      { intros z Hz. destruct (date_eqb (date z) d) eqn:Ez; [exfalso|reflexivity].
        apply date_eqb_eq in Ez.
        assert (Hyz : date_leb (date y) (date z) = true).
        { destruct Hz as [<-|Hz].
          - destruct (date_leb (date y) (date y)) eqn:R; [reflexivity|].
            now rewrite (date_leb_total _ _ R) in R.
          - rewrite Forall_forall in Hy. now apply Hy. }
        rewrite Ez, <- Ex in Hyz. congruence. }
      rewrite (Hnone y (or_introl eq_refl)).
      assert (Hl : filter (fun r => date_eqb (date r) d) l = []).
      { clear - Hnone. induction l as [|z l IH]; [reflexivity|]. cbn [filter].
        rewrite (Hnone z (or_intror (or_introl eq_refl))). apply IH.
        intros w [<-|Hw]; apply Hnone; [now left|right; now right]. }
      now rewrite Hl.
Qed.

Lemma rows_on_fold (d : datetime) (l : list EVMRow) : forall acc,
  StronglySorted by_date acc ->
  rows_on d (fold_left (fun s x => insert_by_date x s) l acc)
  = rows_on d acc ++ rows_on d l.
Proof.
  induction l as [|x l IH]; intros acc H; cbn [fold_left].
  - unfold rows_on. cbn [filter]. now rewrite app_nil_r.
  - rewrite IH by now apply insert_by_date_sorted.
    rewrite rows_on_insert by exact H. rewrite <- app_assoc. f_equal.
    unfold rows_on. cbn [filter]. now destruct (date_eqb (date x) d).
Qed.

Lemma sort_by_date_stable (d : datetime) (l : list EVMRow) :
  rows_on d (sort_by_date l) = rows_on d l.
Proof. unfold sort_by_date. rewrite rows_on_fold by constructor. reflexivity. Qed.

(** Two ledgers in date order with the same rows and no date twice are the
    same ledger. *)
Lemma sorted_perm_unique (l1 : list EVMRow) : forall l2,
  StronglySorted by_date l1 -> StronglySorted by_date l2 ->
  Permutation l1 l2 -> NoDup (map date l1) -> l1 = l2.
Proof.
  induction l1 as [|a l1 IH]; intros l2 H1 H2 HP HN.
  - now apply Permutation_nil in HP.
  - destruct l2 as [|b l2]; [now apply Permutation_sym, Permutation_nil in HP|].
    apply StronglySorted_inv in H1 as [H1 Ha]. apply StronglySorted_inv in H2 as [H2 Hb].
    assert (Hab : a = b).
    { assert (Ia : In a (b :: l2)) by (apply (Permutation_in _ HP); now left).
      assert (Ib : In b (a :: l1))
        by (apply (Permutation_in _ (Permutation_sym HP)); now left).
      destruct Ia as [->|Ia]; [reflexivity|].
      destruct Ib as [->|Ib]; [reflexivity|exfalso].
      rewrite Forall_forall in Ha, Hb.
      assert (E : date a = date b)
        by (apply date_leb_antisym; [apply (Ha b Ib)|apply (Hb a Ia)]).
      inversion HN as [|? ? Hnot _]; subst. apply Hnot. rewrite E.
      now apply in_map. }
    subst b. f_equal. apply IH; auto.
    + now apply Permutation_cons_inv in HP.
    + now inversion HN.
Qed.

End SortFacts.

(** ** The ledger that [read_evm_csv] returns *)

Section LedgerFacts.

Lemma parse_row_any_number (i j : Z) (r : RawRow.t) (row : EVMRow) :
  parse_row i r = Ok row -> parse_row j r = Ok row.
Proof.
  unfold parse_row.
  destruct (do d <- _parse_date (RawRow.Date r);
            do p <- _to_float (RawRow.PV r);
            do e <- _to_float (RawRow.EV r);
            do a <- _to_float (RawRow.AC r);
            Ok (mk_EVMRow d p e a)) as [row'|e]; [|discriminate].
  destruct (existsb isnan [pv row'; ev row'; ac row']); [discriminate|auto].
Qed.

Lemma row_of_record_ok (i : Z) (r : RawRow.t) (row : EVMRow) :
  parse_row i r = Ok row -> row_of_record r = row.
Proof.
  intros H. unfold row_of_record. now rewrite (parse_row_any_number i 0 r row H).
Qed.

Lemma read_rows_map (reader : list RawRow.t) : forall i acc rows,
  read_rows i reader acc = Ok rows -> rows = acc ++ map row_of_record reader.
Proof.
  induction reader as [|r reader IH]; intros i acc rows; cbn [read_rows map].
  - intros [= <-]. now rewrite app_nil_r.
  - destruct (parse_row i r) as [row|] eqn:E; [|discriminate]. cbn [bind].
    intros H. rewrite (IH _ _ _ H), <- app_assoc.
    now rewrite (row_of_record_ok i r row E).
Qed.

Lemma read_rows_all_good (reader : list RawRow.t) : forall i acc,
  existsb row_is_bad reader = false ->
  read_rows i reader acc = Ok (acc ++ map row_of_record reader).
Proof.
  induction reader as [|r reader IH]; intros i acc; cbn [existsb read_rows map].
  - intros _. now rewrite app_nil_r.
  - intros H. apply orb_false_elim in H as [Hr H].
    destruct (parse_row_good i r Hr) as (row & E). rewrite E. cbn [bind].
    rewrite (IH _ _ H), <- app_assoc. now rewrite (row_of_record_ok i r row E).
Qed.

Lemma read_rows_ok_good (reader : list RawRow.t) (i : Z) (acc rows : list EVMRow) :
  read_rows i reader acc = Ok rows -> existsb row_is_bad reader = false.
Proof.
  intros H. destruct (existsb row_is_bad reader) eqn:E; [|reflexivity].
  destruct (read_rows_first_bad reader i acc E) as (k & r & e & _ & _ & _ & _ & He).
  congruence.
Qed.

Lemma read_evm_csv_good (reader : list RawRow.t) :
  existsb row_is_bad reader = false ->
  read_evm_csv reader = Ok (sort_by_date (map row_of_record reader)).
Proof.
  intros H. unfold read_evm_csv. now rewrite (read_rows_all_good reader 2 [] H).
Qed.

Lemma read_evm_csv_ok (reader : list RawRow.t) (rows : list EVMRow) :
  read_evm_csv reader = Ok rows ->
  existsb row_is_bad reader = false /\
  rows = sort_by_date (map row_of_record reader) /\
  Forall2 row_of reader (map row_of_record reader).
Proof.
  unfold read_evm_csv.
  destruct (read_rows 2 reader []) as [rows0|] eqn:E; [|discriminate].
  cbn [bind]. intros [= <-].
  split; [eapply read_rows_ok_good; eauto|].
  destruct (read_rows_ok _ _ _ _ E) as (rows' & -> & HF).
  apply read_rows_map in E. cbn [app] in E. subst rows'. auto.
Qed.

Lemma existsb_perm {A} (f : A -> bool) (l1 l2 : list A) :
  Permutation l1 l2 -> existsb f l1 = false -> existsb f l2 = false.
Proof.
  intros HP H. destruct (existsb f l2) eqn:E; [|reflexivity].
  apply existsb_exists in E as (x & Hx & Hf).
  assert (existsb f l1 = true).
  { apply existsb_exists. exists x. split; [|exact Hf].
    now apply (Permutation_in _ (Permutation_sym HP)). }
  congruence.
Qed.

End LedgerFacts.

(** X1. The ledger that [read_evm_csv] returns is in ascending date order:
    every row is dated no later than every row after it. *)
Theorem X1_ledger_sorted (reader : list RawRow.t) (rows : list EVMRow) :
  read_evm_csv reader = Ok rows -> StronglySorted by_date rows.
Proof.
  intros H. apply read_evm_csv_ok in H as (_ & -> & _). apply sort_by_date_sorted.
Qed.

Lemma X1_ledger_sorted_witness :
  read_evm_csv reader_two = Ok example_ledger /\
  StronglySorted by_date example_ledger.
Proof.
  split; [vm_compute; reflexivity|].
  apply (X1_ledger_sorted reader_two). vm_compute. reflexivity.
Defined.

(** X2. The sort is stable: the rows of the ledger that carry a given date
    are the rows built from the records of that date, in the order of the
    file. *)
Theorem X2_ledger_stable (reader : list RawRow.t) (rows : list EVMRow) :
  read_evm_csv reader = Ok rows ->
  exists rows0,
    Forall2 row_of reader rows0 /\
    Permutation rows rows0 /\
    forall d, rows_on d rows = rows_on d rows0.
Proof.
  intros H. apply read_evm_csv_ok in H as (_ & -> & HF).
  exists (map row_of_record reader). split; [exact HF|].
  split; [apply sort_by_date_perm|]. intros d. apply sort_by_date_stable.
Qed.

Lemma X2_ledger_stable_witness :
  exists rows0,
    Forall2 row_of reader_two rows0 /\
    Permutation example_ledger rows0 /\
    forall d, rows_on d example_ledger = rows_on d rows0.
Proof.
  apply (X2_ledger_stable reader_two). vm_compute. reflexivity.
Defined.

(** X3. [read_evm_csv] returns a ledger exactly when no record is bad (a
    date that no format parses, or an amount on which [_to_float] raises or
    returns NaN); it raises otherwise. *)
Theorem X3_read_succeeds_iff (reader : list RawRow.t) :
  (exists rows, read_evm_csv reader = Ok rows) <-> existsb row_is_bad reader = false.
Proof.
  split.
  - intros (rows & H). now apply read_evm_csv_ok in H.
  - intros H. eexists. now apply read_evm_csv_good.
Qed.

(** X4. The order of the records in the file does not matter when no two
    rows of the ledger share a date: a file with the same records in another
    order gives the same ledger, and the same table and summary. *)
Theorem X4_record_order_irrelevant
  (reader1 reader2 : list RawRow.t) (rows : list EVMRow) (bac : option float) :
  Permutation reader1 reader2 ->
  read_evm_csv reader1 = Ok rows ->
  NoDup (map date rows) ->
  read_evm_csv reader2 = Ok rows /\ main reader2 bac = main reader1 bac.
Proof.
  intros HP H HN.
  assert (H2 : read_evm_csv reader2 = Ok rows).
  { apply read_evm_csv_ok in H as (Hg & -> & _).
    rewrite (read_evm_csv_good reader2 (existsb_perm _ _ _ HP Hg)). f_equal.
    symmetry. apply sorted_perm_unique; auto using sort_by_date_sorted.
    rewrite sort_by_date_perm, (sort_by_date_perm (map row_of_record reader2)).
    now apply Permutation_map. }
  split; [exact H2|]. unfold main. now rewrite H, H2.
Qed.

Lemma X4_record_order_irrelevant_witness :
  read_evm_csv (rev reader_two) = Ok example_ledger /\
  main (rev reader_two) None = main reader_two None.
Proof.
  apply (X4_record_order_irrelevant reader_two (rev reader_two) example_ledger None).
  - apply Permutation_rev.
  - vm_compute. reflexivity.
  - repeat constructor; cbn; intuition discriminate.
Defined.

(** ** The detail table and the summary *)

Section TableFacts.

Lemma total_snoc (col : EVMRow -> float) (l : list EVMRow) (r : EVMRow) :
  total col (l ++ [r]) = total col l + col r.
Proof. unfold total. now rewrite fold_left_app. Qed.

Lemma out_loop_snoc (l : list EVMRow) (r : EVMRow) :
  out (loop (l ++ [r])) = out (loop l) ++ [detail_at l r].
Proof.
  rewrite loop_snoc. unfold loop_body, detail_at. cbn [out].
  destruct (loop_totals l) as (-> & -> & ->).
  now rewrite !total_snoc, !safe_div_spec.
Qed.

Lemma out_loop_app (l1 l2 : list EVMRow) :
  exists l, out (loop (l1 ++ l2)) = out (loop l1) ++ l.
Proof. unfold loop. rewrite fold_left_app. apply fold_out_prefix. Qed.

Lemma detail_nth (before after : list EVMRow) (r : EVMRow) :
  nth_error (out (loop (before ++ r :: after))) (List.length before)
  = Some (detail_at before r).
Proof.
  replace (before ++ r :: after) with ((before ++ [r]) ++ after)
    by now rewrite <- app_assoc.
  destruct (out_loop_app (before ++ [r]) after) as (l & ->).
  rewrite out_loop_snoc, <- app_assoc.
  rewrite nth_error_app2 by (rewrite loop_out_length; lia).
  rewrite loop_out_length, Nat.sub_diag. reflexivity.
Qed.

End TableFacts.

(** X5. The detail table has one record for each row of the ledger, in
    ledger order.  The record of a row carries the row's own date and
    amounts, the running totals of PV, EV and AC through that row, SV and CV
    as their differences, and SPI and CPI as the quotients of the totals, NaN
    where the denominator is zero; it depends neither on the rows after it
    nor on the BAC. *)
Theorem X5_detail_records (before after : list EVMRow) (r : EVMRow) (bac : option float) :
  nth_error (fst (compute_evm (before ++ r :: after) bac)) (List.length before)
  = Some (detail_at before r) /\
  List.length (fst (compute_evm (before ++ r :: after) bac))
  = List.length (before ++ r :: after).
Proof.
  unfold compute_evm. cbn [fst]. split; [apply detail_nth|apply loop_out_length].
Qed.

(** X6. For every ledger the cumulative PV, EV and AC of the summary are the
    running totals of the three columns over the whole ledger (0.0 for the
    empty ledger); for a non-empty ledger its SV and CV are the differences
    of these totals and its SPI and CPI their quotients, NaN where the
    denominator is zero. *)
Theorem X6_summary_totals (rows : list EVMRow) (bac : option float) :
  let s := snd (compute_evm rows bac) in
  Summary.PV_cum s = total pv rows /\
  Summary.EV_cum s = total ev rows /\
  Summary.AC_cum s = total ac rows /\
  (rows <> [] ->
   Summary.SV s = total ev rows - total pv rows /\
   Summary.CV s = total ev rows - total ac rows /\
   Summary.SPI s
   = (if total pv rows =? 0 then nan else total ev rows / total pv rows) /\
   Summary.CPI s
   = (if total ac rows =? 0 then nan else total ev rows / total ac rows)).
Proof.
  cbn zeta. destruct rows as [|r rows].
  - do 3 (split; [reflexivity|]). intros H. now destruct H.
  - destruct (loop_last (r :: rows)) as (d & Hl & Hp & He & Ha & Hsv & Hcv & Hspi & Hcpi);
      [discriminate|].
    unfold compute_evm. cbn [snd Summary.PV_cum Summary.EV_cum Summary.AC_cum
      Summary.SV Summary.CV Summary.SPI Summary.CPI]. rewrite Hl. cbn [get].
    rewrite Hsv, Hcv, Hspi, Hcpi, !safe_div_spec, Hp, He, Ha.
    repeat split; reflexivity.
Qed.

Lemma X6_summary_totals_witness :
  example_ledger <> [] /\
  Summary.SV (snd (compute_evm example_ledger None))
  = total ev example_ledger - total pv example_ledger.
Proof.
  split; [discriminate|].
  apply (proj2 (proj2 (proj2 (X6_summary_totals example_ledger None)))).
  discriminate.
Defined.

(** ** The whole run *)

Lemma diagnostic_not_no_rows (i : Z) (r : RawRow.t) :
  ~ diagnostic_of i r NoRowsError.
Proof. intros H. inversion H. Qed.

(** X7. The run writes a table and prints a summary exactly when the file
    has at least one record and no bad record: the table and the summary are
    then those of the ledger in date order, with one line for each record.
    A file with no record ends in "No rows to write."; any other failure is
    the exception of the reader, and comes from a bad record. *)
Theorem X7_run_outcomes (reader : list RawRow.t) (bac : option float) :
  match main reader bac with
  | Ok (table, summary) =>
      reader <> [] /\
      existsb row_is_bad reader = false /\
      (table, summary)
      = compute_evm (sort_by_date (map row_of_record reader)) bac /\
      List.length table = List.length reader
  | Err NoRowsError => reader = []
  | Err e => existsb row_is_bad reader = true /\ read_evm_csv reader = Err e
  end.
Proof.
  unfold main. destruct (existsb row_is_bad reader) eqn:Hb.
  - destruct (read_rows_first_bad reader 2 [] Hb) as (k & r & e & _ & Hr & _ & Hp & He).
    destruct (parse_row_bad (2 + Z.of_nat k) r Hr) as (e' & He' & Hd).
    assert (e' = e) by congruence. subst e'.
    unfold read_evm_csv. rewrite He. cbn [bind].
    destruct e; try (split; reflexivity).
    now apply diagnostic_not_no_rows in Hd.
  - rewrite (read_evm_csv_good reader Hb). cbn [bind].
    set (ledger := sort_by_date (map row_of_record reader)).
    assert (Hlen : List.length (fst (compute_evm ledger bac)) = List.length reader).
    { unfold compute_evm. cbn [fst]. rewrite loop_out_length. unfold ledger.
      now rewrite (Permutation_length (sort_by_date_perm _)), length_map. }
    destruct (compute_evm ledger bac) as [table summary]. cbn [fst] in Hlen.
    destruct table as [|d table]; cbn [write_csv bind].
    + destruct reader; [reflexivity|discriminate].
    + repeat split; auto. intros ->. discriminate.
Qed.

(** ** The three date formats *)

Section FormatFacts.

Lemma re_match_lit (c : ascii) (fmt : format) (s : str) (g : groups) (r : groups * str) :
  re_match (lit c :: fmt) s g = Some r ->
  exists rest, s = c :: rest /\ re_match fmt rest g = Some r.
Proof.
  cbn [re_match alternatives first_some match_classes].
  destruct s as [|x rest]; [discriminate|].
  destruct (Ascii.eqb_spec c x) as [<-|]; [|discriminate].
  cbn [set_group].
  destruct (re_match fmt rest g) as [r'|] eqn:E; [|discriminate].
  intros [= <-]. eauto.
Qed.

Lemma re_match_Y (fmt : format) (s : str) (g : groups) (r : groups * str) :
  re_match (dir_Y :: fmt) s g = Some r ->
  exists c1 c2 c3 c4 rest,
    s = c1 :: c2 :: c3 :: c4 :: rest /\
    is_digit c1 = true /\ is_digit c2 = true /\
    is_digit c3 = true /\ is_digit c4 = true /\
    re_match fmt rest (set_group dir_Y [c1; c2; c3; c4] g) = Some r.
Proof.
  cbn [re_match alternatives first_some match_classes].
  destruct s as [|c1 [|c2 [|c3 [|c4 rest]]]];
    repeat match goal with
      | |- context [if is_digit ?c then _ else _] => destruct (is_digit c) eqn:?
      end; try discriminate.
  destruct (re_match fmt rest _) as [r'|] eqn:E; [|discriminate].
  intros [= <-]. exists c1, c2, c3, c4, rest. auto 10.
Qed.

(** The day of [%d] is one or two characters long. *)
Lemma re_match_d (fmt : format) (s : str) (g : groups) (r : groups * str) :
  re_match (dir_d :: fmt) s g = Some r ->
  (exists c1 rest,
     s = c1 :: rest /\ re_match fmt rest (set_group dir_d [c1] g) = Some r) \/
  (exists c1 c2 rest,
     s = c1 :: c2 :: rest /\ re_match fmt rest (set_group dir_d [c1; c2] g) = Some r).
Proof.
  cbn [re_match alternatives first_some match_classes].
  destruct s as [|c1 [|c2 rest]]; [discriminate| |].
  - repeat match goal with
      | |- context [if ?b then _ else _] =>
          match b with
          | Ascii.eqb _ _ => destruct b
          | between _ _ _ => destruct b
          | is_digit _ => destruct b
          end
      end; try discriminate;
    repeat match goal with
      | |- context [re_match fmt ?x ?y] => destruct (re_match fmt x y) eqn:?
      end; try discriminate; intros [= <-]; left; eauto.
  - repeat match goal with
      | |- context [if ?b then _ else _] =>
          match b with
          | Ascii.eqb _ _ => destruct b
          | between _ _ _ => destruct b
          | is_digit _ => destruct b
          end
      end; try discriminate;
    repeat match goal with
      | |- context [re_match fmt ?x ?y] => destruct (re_match fmt x y) eqn:?
      end; try discriminate; intros [= <-]; eauto 10.
Qed.

End FormatFacts.

Section ExclusiveFacts.

Lemma strptime_match (s fmt : str) (dt : datetime) :
  strptime s fmt = Some dt ->
  (exists g, re_match (parse_format fmt) s no_groups = Some (g, [])) /\
  valid_date (year dt) (month dt) (day dt) = true.
Proof.
  unfold strptime.
  destruct (re_match (parse_format fmt) s no_groups) as [[g rest]|]; [|discriminate].
  destruct rest; [|discriminate].
  destruct (valid_date _ _ _) eqn:V; [|discriminate].
  intros [= <-]. split; [eauto|exact V].
Qed.

Lemma shape_year_first (sep : ascii) (fmt : format) (s : str) (r : groups * str) :
  re_match (dir_Y :: lit sep :: fmt) s no_groups = Some r ->
  exists c1 c2 c3 c4 rest,
    s = c1 :: c2 :: c3 :: c4 :: sep :: rest /\
    is_digit c2 = true /\ is_digit c3 = true.
Proof.
  intros H. apply re_match_Y in H as (c1 & c2 & c3 & c4 & rest & -> & _ & H2 & H3 & _ & H).
  apply re_match_lit in H as (rest' & -> & _). exists c1, c2, c3, c4, rest'. auto.
Qed.

Lemma shape_day_first (fmt : format) (s : str) (r : groups * str) :
  re_match (dir_d :: lit "/" :: fmt) s no_groups = Some r ->
  (exists c1 rest, s = c1 :: "/"%char :: rest) \/
  (exists c1 c2 rest, s = c1 :: c2 :: "/"%char :: rest).
Proof.
  intros H. apply re_match_d in H as [(c1 & rest & -> & H)|(c1 & c2 & rest & -> & H)];
    apply re_match_lit in H as (rest' & -> & _); eauto.
Qed.

Lemma formats_exclusive (s fmt1 fmt2 : str) (dt1 dt2 : datetime) :
  In fmt1 date_formats -> In fmt2 date_formats ->
  strptime s fmt1 = Some dt1 -> strptime s fmt2 = Some dt2 -> fmt1 = fmt2.
Proof.
  intros I1 I2 H1 H2.
  apply strptime_match in H1 as [(g1 & H1) _].
  apply strptime_match in H2 as [(g2 & H2) _].
  unfold date_formats in I1, I2.
  destruct I1 as [<-|[<-|[<-|[]]]]; destruct I2 as [<-|[<-|[<-|[]]]];
    try reflexivity; exfalso;
    repeat match goal with
      | H : re_match (parse_format (of_string _)) _ _ = Some _ |- _ =>
          first [ apply (shape_year_first "-") in H as (?c & ?c & ?c & ?c & ?r & ? & ? & ?)
                | apply (shape_year_first "/") in H as (?c & ?c & ?c & ?c & ?r & ? & ? & ?)
                | apply shape_day_first in H as [(?c & ?r & ?)|(?c & ?c & ?r & ?)] ]
      end; subst; try discriminate;
    match goal with
    | H : _ :: _ = _ :: _ |- _ => injection H as; subst; discriminate
    end.
Qed.

End ExclusiveFacts.

Lemma formats_same_date (s fmt1 fmt2 : str) (dt1 dt2 : datetime) :
  In fmt1 date_formats -> In fmt2 date_formats ->
  strptime s fmt1 = Some dt1 -> strptime s fmt2 = Some dt2 ->
  fmt1 = fmt2 /\ dt1 = dt2.
Proof.
  intros I1 I2 H1 H2.
  assert (E := formats_exclusive _ _ _ _ _ I1 I2 H1 H2). subst fmt2.
  split; [reflexivity|congruence].
Qed.

Lemma parse_date_iff (d : str) (dt : datetime) :
  _parse_date d = Ok dt <->
  exists fmt, In fmt date_formats /\ strptime (strip d) fmt = Some dt.
Proof.
  unfold _parse_date. unfold date_formats at 1. cbn [try_formats]. split.
  - destruct (strptime (strip d) "%Y-%m-%d") as [d1|] eqn:E1.
    { intros [= <-]. eexists. split; [left; reflexivity|exact E1]. }
    destruct (strptime (strip d) "%d/%m/%Y") as [d2|] eqn:E2.
    { intros [= <-]. eexists. split; [right; left; reflexivity|exact E2]. }
    destruct (strptime (strip d) "%Y/%m/%d") as [d3|] eqn:E3; [|discriminate].
    intros [= <-]. eexists. split; [right; right; left; reflexivity|exact E3].
  - intros (fmt & Hin & Hf).
    destruct (strptime (strip d) "%Y-%m-%d") as [d1|] eqn:E1.
    { destruct (formats_same_date _ _ _ _ _ (or_introl eq_refl) Hin E1 Hf) as [_ ->].
      reflexivity. }
    destruct (strptime (strip d) "%d/%m/%Y") as [d2|] eqn:E2.
    { destruct (formats_same_date _ _ _ _ _ (or_intror (or_introl eq_refl)) Hin E2 Hf)
        as [_ ->]. reflexivity. }
    destruct Hin as [<-|[<-|[<-|[]]]]; try congruence. now rewrite Hf.
Qed.

Lemma parse_date_valid (d : str) (dt : datetime) :
  _parse_date d = Ok dt -> valid_date (year dt) (month dt) (day dt) = true.
Proof.
  intros H. apply parse_date_iff in H as (fmt & _ & H).
  now apply strptime_match in H.
Qed.

Lemma Forall2_in_r {A B} (R : A -> B -> Prop) (l : list A) (l' : list B) (y : B) :
  Forall2 R l l' -> In y l' -> exists x, In x l /\ R x y.
Proof.
  induction 1 as [|a b l l' Hab HF IH]; intros Hin; [destruct Hin|].
  destruct Hin as [<-|Hin]; [exists a; split; [now left|exact Hab]|].
  destruct (IH Hin) as (x & Hx & HR). exists x. split; [now right|exact HR].
Qed.

(** X8. No text is accepted by two of the three date formats, so the order
    in which [_parse_date] tries them decides no result: [_parse_date]
    returns a date exactly when one of the formats parses the stripped text,
    and that format is the only one that does. *)
Theorem X8_formats_exclusive (d : str) (dt : datetime) :
  (forall fmt1 fmt2 dt1 dt2,
     In fmt1 date_formats -> In fmt2 date_formats ->
     strptime (strip d) fmt1 = Some dt1 -> strptime (strip d) fmt2 = Some dt2 ->
     fmt1 = fmt2 /\ dt1 = dt2) /\
  (_parse_date d = Ok dt <->
   exists fmt, In fmt date_formats /\ strptime (strip d) fmt = Some dt).
Proof.
  split; [intros; eapply formats_same_date; eauto|apply parse_date_iff].
Qed.

Lemma X8_formats_exclusive_witness :
  _parse_date "03/04/2024" = Ok (mk_datetime 2024 4 3).
Proof.
  apply (proj2 (proj2 (X8_formats_exclusive "03/04/2024" (mk_datetime 2024 4 3)))).
  exists ("%d/%m/%Y" : str). split; [right; left; reflexivity|].
  vm_compute. reflexivity.
Defined.

(** X9. A date that [_parse_date] returns is a date of the calendar: its
    year lies between 1 and 9999, its month between 1 and 12, its day between
    1 and the length of that month in that year; so is the date of every row
    of a ledger. *)
Theorem X9_dates_valid :
  (forall d dt, _parse_date d = Ok dt ->
     valid_date (year dt) (month dt) (day dt) = true) /\
  (forall reader rows, read_evm_csv reader = Ok rows ->
     Forall (fun row => valid_date (year (date row)) (month (date row))
                          (day (date row)) = true) rows).
Proof.
  split; [exact parse_date_valid|].
  intros reader rows H. apply read_evm_csv_ok in H as (_ & -> & HF).
  apply Forall_forall. intros row Hin.
  apply (Permutation_in _ (sort_by_date_perm _)) in Hin.
  destruct (Forall2_in_r _ _ _ _ HF Hin) as (r & _ & Hd & _).
  eapply parse_date_valid; eauto.
Qed.

Lemma X9_dates_valid_witness :
  valid_date 2024 4 3 = true.
Proof.
  apply (proj1 X9_dates_valid "03/04/2024" (mk_datetime 2024 4 3)).
  vm_compute. reflexivity.
Defined.

(** ** The header of the input file *)

Section HeaderFacts.

Lemma pystr_eqb_refl (a : str) : PyStr.eqb a a = true.
Proof. unfold PyStr.eqb. now destruct (list_eq_dec ascii_dec a a). Qed.

Lemma existsb_pystr_in (c : str) (l : list str) :
  existsb (PyStr.eqb c) l = true <-> In c l.
Proof.
  rewrite existsb_exists. split.
  - intros (x & Hx & E). apply pystr_eqb_eq in E. now subst.
  - intros H. exists c. split; [exact H|apply pystr_eqb_refl].
Qed.

Lemma missing_columns_in (names : list str) (c : str) :
  In c (missing_columns names) <-> In c REQUIRED_COLS /\ ~ In c names.
Proof.
  unfold missing_columns. rewrite filter_In. split.
  - intros [Hc Hn]. split; [exact Hc|]. intros Hin.
    apply existsb_pystr_in in Hin. now rewrite Hin in Hn.
  - intros [Hc Hn]. split; [exact Hc|].
    destruct (existsb (PyStr.eqb c) names) eqn:E; [|reflexivity].
    now apply existsb_pystr_in in E.
Qed.

End HeaderFacts.

(** X10. The header is accepted exactly when the file exists, has a header
    row, and the four names Date, PV, EV, AC are among its columns, in any
    order and beside any other columns.  When a name is missing the error
    lists the missing names, which are the required names absent from the
    header, and the header found. *)
Theorem X10_header_check (path_exists : bool) (fieldnames : option (list str)) :
  (check_header path_exists fieldnames = Ok tt <->
   path_exists = true /\
   exists names, fieldnames = Some names /\
                 forall c, In c REQUIRED_COLS -> In c names) /\
  (forall missing found,
     check_header path_exists fieldnames = Err (MissingColumnsError missing found) ->
     fieldnames = Some found /\ missing <> [] /\
     missing = missing_columns found /\
     forall c, In c missing <-> In c REQUIRED_COLS /\ ~ In c found).
Proof.
  unfold check_header. destruct path_exists; cbn [negb].
  2:{ split; [split; [discriminate|intros [H _]; discriminate]|discriminate]. }
  destruct fieldnames as [names|].
  2:{ split; [split; [discriminate|intros (_ & n & H & _); discriminate]|discriminate]. }
  destruct (missing_columns names) as [|m ms] eqn:E.
  - split; [|discriminate]. split; [|reflexivity].
    intros _. split; [reflexivity|]. exists names. split; [reflexivity|].
    intros c Hc. destruct (in_dec (list_eq_dec ascii_dec) c names) as [H|H]; [exact H|].
    assert (Hin : In c (missing_columns names)) by now apply missing_columns_in.
    rewrite E in Hin. destruct Hin.
  - split.
    + split; [discriminate|]. intros (_ & n & [= <-] & Hall). exfalso.
      assert (Hin : In m (missing_columns names)) by (rewrite E; now left).
      apply missing_columns_in in Hin as [Hm Hn]. auto.
    + intros missing found [= <- <-]. split; [reflexivity|].
      split; [discriminate|]. split; [now rewrite E|].
      intros c. rewrite <- E. apply missing_columns_in.
Qed.

Lemma X10_header_check_witness :
  check_header true (Some [("AC" : str); ("Note" : str); ("EV" : str);
                           ("Date" : str); ("PV" : str)]) = Ok tt.
Proof.
  apply (proj1 (X10_header_check true _)). split; [reflexivity|].
  eexists. split; [reflexivity|].
  intros c [<-|[<-|[<-|[<-|[]]]]]; cbn; auto 10.
Defined.

(** ** The text of a formatted number *)

Section DigitFacts.

Local Open Scope Z_scope.

Lemma digit_char_spec (d : Z) :
  0 <= d < 10 -> is_digit (digit_char d) = true /\ digit_val (digit_char d) = d.
Proof.
  intros H.
  assert (C : d = 0 \/ d = 1 \/ d = 2 \/ d = 3 \/ d = 4 \/ d = 5 \/ d = 6
              \/ d = 7 \/ d = 8 \/ d = 9) by lia.
  repeat (destruct C as [->|C]; [split; reflexivity|]). subst. split; reflexivity.
Qed.

Lemma digits_to_Z_from (l : str) : forall a,
  fold_left (fun acc c => 10 * acc + digit_val c) l a
  = a * 10 ^ Z.of_nat (List.length l) + digits_to_Z l.
Proof.
  unfold digits_to_Z. induction l as [|c l IH]; intros a; cbn [fold_left List.length].
  - cbn. lia.
  - rewrite IH, (IH (10 * 0 + digit_val c)), Nat2Z.inj_succ, Z.pow_succ_r by lia. lia.
Qed.

Lemma digits_to_Z_cons (c : ascii) (l : str) :
  digits_to_Z (c :: l) = digit_val c * 10 ^ Z.of_nat (List.length l) + digits_to_Z l.
Proof.
  unfold digits_to_Z at 1. cbn [fold_left]. rewrite digits_to_Z_from. lia.
Qed.

Lemma digits_to_Z_app (a b : str) :
  digits_to_Z (a ++ b) = digits_to_Z a * 10 ^ Z.of_nat (List.length b) + digits_to_Z b.
Proof.
  unfold digits_to_Z at 1. rewrite fold_left_app.
  fold (digits_to_Z a). apply digits_to_Z_from.
Qed.

Lemma digits_fuel_spec (f : nat) : forall n acc,
  0 <= n < 2 ^ Z.of_nat f ->
  forallb is_digit acc = true ->
  forallb is_digit (digits_fuel f n acc) = true /\
  digits_to_Z (digits_fuel f n acc)
  = n * 10 ^ Z.of_nat (List.length acc) + digits_to_Z acc.
Proof.
  induction f as [|f IH]; intros n acc Hn Hacc; cbn [digits_fuel].
  - cbn in Hn. assert (n = 0) by lia. subst. split; [exact Hacc|lia].
  - assert (Hmod : 0 <= n mod 10 < 10) by (apply Z.mod_pos_bound; lia).
    destruct (digit_char_spec _ Hmod) as [Hd Hv].
    assert (Hacc' : forallb is_digit (digit_char (n mod 10) :: acc) = true)
      by (cbn [forallb]; now rewrite Hd).
    assert (Hval : digits_to_Z (digit_char (n mod 10) :: acc)
                   = n mod 10 * 10 ^ Z.of_nat (List.length acc) + digits_to_Z acc)
      by (rewrite digits_to_Z_cons, Hv; reflexivity).
    assert (Hdm : n = 10 * (n / 10) + n mod 10) by (apply Z.div_mod; lia).
    set (X := 10 ^ Z.of_nat (List.length acc)) in *.
    assert (HX : n * X = n / 10 * (10 * X) + n mod 10 * X)
      by (rewrite Hdm at 1; ring).
    destruct (Z.eqb_spec (n / 10) 0) as [E|E].
    + split; [exact Hacc'|]. rewrite Hval. rewrite E in HX. lia.
    + assert (Hdiv : 0 <= n / 10 < 2 ^ Z.of_nat f).
      { split; [apply Z.div_pos; lia|].
        rewrite Nat2Z.inj_succ, Z.pow_succ_r in Hn by lia.
        apply Z.div_lt_upper_bound; lia. }
      destruct (IH (n / 10) _ Hdiv Hacc') as [H1 H2]. split; [exact H1|].
      rewrite H2, Hval. cbn [List.length]. rewrite Nat2Z.inj_succ, Z.pow_succ_r by lia.
      fold X. lia.
Qed.

Lemma digits_fuel_length (f : nat) : forall n acc (p : nat),
  0 <= n < 10 ^ Z.of_nat p -> (1 <= p)%nat ->
  (List.length (digits_fuel f n acc) <= List.length acc + p)%nat.
Proof.
  induction f as [|f IH]; intros n acc p Hn Hp; cbn [digits_fuel]; [lia|].
  destruct (Z.eqb_spec (n / 10) 0) as [E|E]; [cbn [List.length]; lia|].
  destruct p as [|[|p]]; [lia| |].
  - exfalso. apply E. apply Z.div_small. cbn in Hn. lia.
  - assert (Hdiv : 0 <= n / 10 < 10 ^ Z.of_nat (S p)).
    { split; [apply Z.div_pos; lia|].
      rewrite (Nat2Z.inj_succ (S p)), Z.pow_succ_r in Hn by lia.
      apply Z.div_lt_upper_bound; lia. }
    specialize (IH (n / 10) (digit_char (n mod 10) :: acc) (S p) Hdiv ltac:(lia)).
    cbn [List.length] in IH. lia.
Qed.

Lemma digits_fuel_nonempty (f : nat) (n : Z) (acc : str) :
  acc <> [] -> digits_fuel f n acc <> [].
Proof.
  revert n acc. induction f as [|f IH]; intros n acc H; cbn [digits_fuel]; [exact H|].
  destruct (n / 10 =? 0); [discriminate|]. apply IH. discriminate.
Qed.

(** The digits of a natural number: digits only, at least one, and they
    write the number. *)
Lemma digits_of_Z_spec (n : Z) :
  0 <= n ->
  forallb is_digit (digits_of_Z n) = true /\
  digits_to_Z (digits_of_Z n) = n /\
  digits_of_Z n <> [].
Proof.
  intros Hn. unfold digits_of_Z.
  assert (Hb : 0 <= n < 2 ^ Z.of_nat (S (Z.to_nat (Z.log2 n)))).
  { split; [exact Hn|]. rewrite Nat2Z.inj_succ, Z2Nat.id by apply Z.log2_nonneg.
    destruct (Z.eq_dec n 0) as [->|Hz]; [cbn; lia|].
    apply Z.log2_spec. lia. }
  destruct (digits_fuel_spec _ n [] Hb eq_refl) as [H1 H2].
  split; [exact H1|]. split; [rewrite H2; cbn; lia|].
  cbn [digits_fuel]. destruct (n / 10 =? 0); [discriminate|].
  apply digits_fuel_nonempty. discriminate.
Qed.

Lemma digits_of_Z_length (n : Z) (p : nat) :
  0 <= n < 10 ^ Z.of_nat p -> (1 <= p)%nat -> (List.length (digits_of_Z n) <= p)%nat.
Proof. intros Hn Hp. apply (digits_fuel_length _ n [] p Hn Hp). Qed.

Lemma repeat_zero_digits (k : nat) :
  forallb is_digit (repeat "0"%char k) = true /\ digits_to_Z (repeat "0"%char k) = 0.
Proof.
  induction k as [|k [IH1 IH2]]; [split; reflexivity|]. cbn [repeat forallb].
  split; [now rewrite IH1|]. rewrite digits_to_Z_cons, IH2. cbn. lia.
Qed.

(** The decimals of a number below [10^p]: [p] digits that write it. *)
Lemma pad_spec (p : nat) (n : Z) :
  0 <= n < 10 ^ Z.of_nat p -> (1 <= p)%nat ->
  forallb is_digit (pad p (digits_of_Z n)) = true /\
  digits_to_Z (pad p (digits_of_Z n)) = n /\
  List.length (pad p (digits_of_Z n)) = p.
Proof.
  intros Hn Hp. unfold pad.
  destruct (digits_of_Z_spec n (proj1 Hn)) as (H1 & H2 & _).
  destruct (repeat_zero_digits (p - List.length (digits_of_Z n))) as [Z1 Z2].
  assert (Hl := digits_of_Z_length n p Hn Hp).
  split; [now rewrite forallb_app, Z1, H1|].
  split; [rewrite digits_to_Z_app, Z2, H2; lia|].
  rewrite length_app, repeat_length. lia.
Qed.

End DigitFacts.

Section NumeralTextFacts.

Local Open Scope Z_scope.

Lemma numeral_char_plain (c : ascii) :
  numeral_char c = true -> isspace c = false /\ Ascii.eqb c "_" = false.
Proof.
  destruct c as [[] [] [] [] [] [] [] []]; cbn; intros H;
    try discriminate H; split; reflexivity.
Qed.

Lemma digit_numeral (l : str) :
  forallb is_digit l = true -> forallb numeral_char l = true.
Proof.
  induction l as [|c l IH]; [reflexivity|]. cbn [forallb].
  intros [Hc Hl]%andb_prop. unfold numeral_char at 1. rewrite Hc. cbn. auto.
Qed.

Lemma digit_facts (c : ascii) :
  is_digit c = true ->
  Ascii.eqb c "," = false /\ Ascii.eqb c "." = false /\
  Ascii.eqb c "-" = false /\ Ascii.eqb c "+" = false /\
  lower_char c <> "i"%char /\ lower_char c <> "n"%char.
Proof.
  destruct c as [[] [] [] [] [] [] [] []]; cbn; intros H;
    try discriminate H; repeat split; try reflexivity; discriminate.
Qed.

Lemma lstrip_plain (s : str) :
  forallb (fun c => negb (isspace c)) s = true -> lstrip s = s.
Proof.
  destruct s as [|c s]; [reflexivity|]. cbn [forallb lstrip].
  intros [Hc _]%andb_prop. now destruct (isspace c).
Qed.

Lemma strip_plain (s : str) :
  forallb (fun c => negb (isspace c)) s = true -> strip s = s.
Proof.
  intros H. unfold strip, rstrip. rewrite (lstrip_plain s H).
  rewrite lstrip_plain; [apply rev_involutive|].
  rewrite forallb_forall in *. intros x Hx. apply H. now apply in_rev.
Qed.

Lemma numeral_strip (s : str) : forallb numeral_char s = true -> strip s = s.
Proof.
  intros H. apply strip_plain. rewrite forallb_forall in *. intros x Hx.
  now rewrite (proj1 (numeral_char_plain x (H x Hx))).
Qed.

Lemma numeral_no_underscore (s : str) : forall prev,
  forallb numeral_char s = true -> Ascii.eqb prev "_" = false ->
  drop_underscores prev s = Some s.
Proof.
  induction s as [|c s IH]; intros prev H Hp; cbn [drop_underscores].
  - now rewrite Hp.
  - cbn [forallb] in H. apply andb_prop in H as [Hc Hs].
    destruct (numeral_char_plain c Hc) as [_ Hu]. rewrite Hu, Hp. cbn [andb].
    now rewrite (IH c Hs Hu).
Qed.

Lemma span_digits_app (ds : str) (c : ascii) (r : str) :
  forallb is_digit ds = true -> is_digit c = false ->
  span_digits (ds ++ c :: r) = (ds, c :: r).
Proof.
  intros Hd Hc. induction ds as [|d ds IH]; cbn [app span_digits].
  - now rewrite Hc.
  - cbn [forallb] in Hd. apply andb_prop in Hd as [H1 H2]. now rewrite H1, (IH H2).
Qed.

Lemma span_digits_all (ds : str) :
  forallb is_digit ds = true -> span_digits ds = (ds, []).
Proof.
  induction ds as [|d ds IH]; [reflexivity|]. cbn [forallb span_digits].
  intros [H1 H2]%andb_prop. now rewrite H1, (IH H2).
Qed.

Lemma pystr_eqb_head (x y : ascii) (a b : str) : x <> y -> PyStr.eqb (x :: a) (y :: b) = false.
Proof.
  intros H. unfold PyStr.eqb.
  destruct (list_eq_dec ascii_dec (x :: a) (y :: b)) as [E|]; [congruence|reflexivity].
Qed.

(** [float()] on a sign, digits, a point and digits. *)
Lemma py_float_fixed (s : bool) (ip fp : str) :
  forallb is_digit ip = true -> ip <> [] -> forallb is_digit fp = true ->
  py_float (sign_text s ++ ip ++ "."%char :: fp)
  = Some (float_of_decimal s (digits_to_Z (ip ++ fp)) (0 - Z.of_nat (List.length fp))).
Proof.
  intros Hi Hne Hf.
  assert (Hnum : forallb numeral_char (sign_text s ++ ip ++ "."%char :: fp) = true).
  { rewrite !forallb_app. cbn [forallb]. rewrite (digit_numeral _ Hi), (digit_numeral _ Hf).
    destruct s; reflexivity. }
  unfold py_float. rewrite (numeral_strip _ Hnum).
  rewrite (numeral_no_underscore _ Ascii.zero Hnum eq_refl).
  destruct ip as [|d ip]; [contradiction|].
  cbn [forallb] in Hi. apply andb_prop in Hi as [Hd Hi].
  destruct (digit_facts d Hd) as (Hc & Hp & Hm & Hpl & Hli & Hln).
  assert (Hs : parse_sign (sign_text s ++ (d :: ip) ++ "."%char :: fp)
               = (s, (d :: ip) ++ "."%char :: fp)).
  { destruct s; cbn [sign_text app parse_sign]; [reflexivity|]. now rewrite Hm, Hpl. }
  rewrite Hs. cbn [app lower map of_string list_ascii_of_string].
  rewrite !pystr_eqb_head by assumption. cbn [orb].
  unfold parse_number.
  change (d :: ip ++ "."%char :: fp) with ((d :: ip) ++ "."%char :: fp).
  rewrite span_digits_app
    by (first [reflexivity | cbn [forallb]; now rewrite Hd, Hi]).
  rewrite Ascii.eqb_refl, (span_digits_all fp Hf). cbn [app parse_exponent].
  reflexivity.
Qed.

End NumeralTextFacts.

Section GroupFacts.

Local Open Scope Z_scope.

Lemma remove_char_app (c : ascii) (a b : str) :
  remove_char c (a ++ b) = remove_char c a ++ remove_char c b.
Proof. apply filter_app. Qed.

Lemma remove_char_rev (c : ascii) (s : str) :
  remove_char c (rev s) = rev (remove_char c s).
Proof.
  induction s as [|x s IH]; [reflexivity|]. cbn [rev].
  rewrite remove_char_app, IH. unfold remove_char at 2 3. cbn [filter].
  destruct (negb (Ascii.eqb x c)); cbn [rev app]; [reflexivity|now rewrite app_nil_r].
Qed.

Lemma remove_char_digits (c : ascii) (ds : str) :
  is_digit c = false -> forallb is_digit ds = true -> remove_char c ds = ds.
Proof.
  intros Hc. induction ds as [|d ds IH]; [reflexivity|]. cbn [forallb].
  intros [Hd Hs]%andb_prop. unfold remove_char in *. cbn [filter]. rewrite (IH Hs).
  destruct (Ascii.eqb_spec d c) as [->|]; [congruence|reflexivity].
Qed.

Lemma remove_comma_group_rev (rs : str) : forall k,
  forallb is_digit rs = true -> remove_char "," (group_rev k rs) = rs.
Proof.
  induction rs as [|c rs IH]; intros k; [reflexivity|]. cbn [forallb group_rev].
  intros [Hc Hs]%andb_prop. destruct (digit_facts c Hc) as (Hcomma & _).
  destruct (Nat.eqb k 3); unfold remove_char in *; cbn [filter];
    rewrite ?Hcomma; cbn [Ascii.eqb negb]; now rewrite IH.
Qed.

(** Taking the commas out of the grouped digits gives the digits back. *)
Lemma remove_comma_group (ds : str) :
  forallb is_digit ds = true -> remove_char "," (group ds) = ds.
Proof.
  intros H. unfold group. rewrite remove_char_rev, remove_comma_group_rev.
  - apply rev_involutive.
  - rewrite forallb_forall in *. intros x Hx. apply H. now apply in_rev.
Qed.

Lemma group_rev_numeral (rs : str) : forall k,
  forallb is_digit rs = true -> forallb numeral_char (group_rev k rs) = true.
Proof.
  induction rs as [|c rs IH]; intros k; [reflexivity|]. cbn [forallb group_rev].
  intros [Hc Hs]%andb_prop.
  assert (Hn : numeral_char c = true) by (unfold numeral_char; now rewrite Hc).
  destruct (Nat.eqb k 3); cbn [forallb]; rewrite Hn, IH by exact Hs; reflexivity.
Qed.

Lemma group_numeral (ds : str) :
  forallb is_digit ds = true -> forallb numeral_char (group ds) = true.
Proof.
  intros H. unfold group. rewrite forallb_forall. intros x Hx. apply in_rev in Hx.
  revert x Hx. rewrite <- forallb_forall. apply group_rev_numeral.
  rewrite forallb_forall in *. intros x Hx. apply H. now apply in_rev.
Qed.

Lemma group_no_point (ds : str) :
  forallb is_digit ds = true -> count "." (group ds) = O.
Proof.
  intros H. unfold group. rewrite count_rev.
  assert (G : forall rs k, forallb is_digit rs = true -> count "." (group_rev k rs) = O).
  { induction rs as [|c rs IH]; intros k; [reflexivity|]. cbn [forallb group_rev].
    intros [Hc Hs]%andb_prop. destruct (digit_facts c Hc) as (_ & Hp & _).
    rewrite Ascii.eqb_sym in Hp.
    destruct (Nat.eqb k 3); rewrite !count_cons, Hp, IH by exact Hs; reflexivity. }
  apply G. rewrite forallb_forall in *. intros x Hx. apply H. now apply in_rev.
Qed.

Lemma rfind_from_app (c : ascii) (a b : str) : forall i f,
  rfind_from c (a ++ b) i f
  = rfind_from c b (i + Z.of_nat (List.length a)) (rfind_from c a i f).
Proof.
  induction a as [|x a IH]; intros i f; cbn [app rfind_from List.length].
  - now rewrite Z.add_0_r.
  - rewrite IH. f_equal. lia.
Qed.

Lemma rfind_from_none (c : ascii) (s : str) : forall i f,
  count c s = O -> rfind_from c s i f = f.
Proof.
  induction s as [|x s IH]; intros i f; [reflexivity|]. rewrite count_cons.
  cbn [rfind_from].
  destruct (Ascii.eqb_spec c x) as [->|Hn]; intros H; [cbn in H; discriminate|].
  destruct (Ascii.eqb_spec x c) as [->|_]; [congruence|]. now apply IH.
Qed.

Lemma rfind_from_lt (c : ascii) (s : str) : forall i f,
  f < i -> rfind_from c s i f < i + Z.of_nat (List.length s).
Proof.
  induction s as [|x s IH]; intros i f H; cbn [rfind_from List.length]; [lia|].
  specialize (IH (i + 1) (if Ascii.eqb x c then i else f)).
  destruct (Ascii.eqb x c); lia.
Qed.

(** On a text whose only point comes after every comma, and is followed by
    digits, the separators are rewritten by taking the commas out. *)
Lemma normalize_point_last (a fp : str) :
  count "." a = O -> forallb is_digit fp = true ->
  normalize_separators (a ++ "."%char :: fp) = remove_char "," (a ++ "."%char :: fp).
Proof.
  intros Ha Hf. unfold normalize_separators.
  assert (Hpt : contains "." (a ++ "."%char :: fp) = true).
  { rewrite contains_count, count_app, count_cons. cbn. now rewrite Nat.add_comm. }
  assert (Hfc : forall c, is_digit c = false -> count c fp = O)
    by (intros c Hc; now apply count_digits).
  rewrite Hpt. destruct (contains "," (a ++ "."%char :: fp)) eqn:Hc; cbn [andb negb].
  - unfold rfind. rewrite !rfind_from_app. cbn [rfind_from].
    rewrite (rfind_from_none "," fp), (rfind_from_none "." fp)
      by (apply Hfc; reflexivity).
    change (Ascii.eqb "." ",") with false. change (Ascii.eqb "." ".") with true.
    cbv iota.
    assert (Hlt := rfind_from_lt "," a 0 (-1) ltac:(lia)).
    destruct (Z.gtb_spec (rfind_from "," a 0 (-1)) (0 + Z.of_nat (List.length a)));
      [lia|reflexivity].
  - symmetry. unfold remove_char.
    rewrite contains_count in Hc. destruct (count "," (a ++ "."%char :: fp)) eqn:E;
      [|discriminate].
    clear - E. induction (a ++ "."%char :: fp) as [|x l IH]; [reflexivity|].
    rewrite count_cons in E. cbn [filter].
    destruct (Ascii.eqb_spec ","%char x) as [<-|Hn]; [cbn in E; discriminate|].
    destruct (Ascii.eqb_spec x ",") as [->|_]; [congruence|]. cbn [negb].
    now rewrite IH.
Qed.

End GroupFacts.

Section FormatTextFacts.

Local Open Scope Z_scope.

Lemma scaled_nonneg (p : nat) (m : positive) (e : Z) : 0 <= scaled p m e.
Proof.
  unfold scaled.
  assert (Ht : 0 < 10 ^ Z.of_nat p) by (apply Z.pow_pos_nonneg; lia).
  destruct (0 <=? e) eqn:E.
  - apply Z.leb_le in E. assert (0 < 2 ^ e) by (apply Z.pow_pos_nonneg; lia). nia.
  - apply Z.leb_gt in E. assert (Hd : 0 < 2 ^ (- e)) by (apply Z.pow_pos_nonneg; lia).
    assert (Hq : 0 <= Z.pos m * 10 ^ Z.of_nat p / 2 ^ (- e))
      by (apply Z.div_pos; [nia|exact Hd]).
    destruct (_ ?= _); [destruct (Z.even _)| |]; lia.
Qed.

(** [scaled] is within one half of the exact product. *)
Lemma scaled_nearest (p : nat) (m : positive) (e : Z) :
  e < 0 ->
  2 * Z.abs (scaled p m e * 2 ^ (- e) - Z.pos m * 10 ^ Z.of_nat p) <= 2 ^ (- e).
Proof.
  intros He. unfold scaled. rewrite (proj2 (Z.leb_gt 0 e) He).
  assert (Hd : 0 < 2 ^ (- e)) by (apply Z.pow_pos_nonneg; lia).
  set (num := Z.pos m * 10 ^ Z.of_nat p). set (den := 2 ^ (- e)) in *.
  assert (Hdm := Z.div_mod num den ltac:(lia)).
  assert (Hr := Z.mod_pos_bound num den Hd).
  destruct (Z.compare_spec (2 * (num mod den)) den) as [E|E|E];
    [destruct (Z.even (num / den))| |]; nia.
Qed.

(** The two parts of a number of [10^-p]: what they are made of. *)
Lemma fixed_parts (p : nat) (q : Z) :
  0 <= q -> (1 <= p)%nat ->
  let ip := digits_of_Z (q / 10 ^ Z.of_nat p) in
  let fp := pad p (digits_of_Z (q mod 10 ^ Z.of_nat p)) in
  forallb is_digit ip = true /\ ip <> [] /\
  forallb is_digit fp = true /\ List.length fp = p /\
  digits_to_Z (ip ++ fp) = q.
Proof.
  intros Hq Hp. cbn zeta.
  assert (Ht : 0 < 10 ^ Z.of_nat p) by (apply Z.pow_pos_nonneg; lia).
  destruct (digits_of_Z_spec (q / 10 ^ Z.of_nat p)) as (I1 & I2 & I3);
    [apply Z.div_pos; lia|].
  destruct (pad_spec p (q mod 10 ^ Z.of_nat p)) as (F1 & F2 & F3);
    [apply Z.mod_pos_bound; lia|exact Hp|].
  repeat split; auto.
  rewrite digits_to_Z_app, I2, F2, F3.
  rewrite (Z.div_mod q (10 ^ Z.of_nat p)) at 3 by lia. lia.
Qed.

Lemma fixed_text_shape (p : nat) (grouping s : bool) (q : Z) :
  0 <= q -> (1 <= p)%nat -> fixed_shape p grouping (sign_text s ++ fixed_text p grouping q).
Proof.
  intros Hq Hp. destruct (fixed_parts p q Hq Hp) as (I1 & I3 & F1 & F3 & _).
  exists s. right. eexists. eexists. unfold fixed_text. cbn zeta.
  split; [reflexivity|]. auto.
Qed.

(** [_to_float] reads the text of a number of [10^-p] as the float nearest
    to it. *)
Lemma to_float_fixed_text (p : nat) (grouping s : bool) (q : Z) :
  0 <= q -> (1 <= p)%nat ->
  _to_float (sign_text s ++ fixed_text p grouping q)
  = Ok (float_of_decimal s q (0 - Z.of_nat p)).
Proof.
  intros Hq Hp. destruct (fixed_parts p q Hq Hp) as (I1 & I3 & F1 & F3 & V).
  unfold fixed_text. cbn zeta.
  set (ip := digits_of_Z (q / 10 ^ Z.of_nat p)) in *.
  set (fp := pad p (digits_of_Z (q mod 10 ^ Z.of_nat p))) in *.
  match goal with
  | |- context [sign_text s ++ ?g ++ _] => remember g as gp eqn:Egp
  end.
  assert (Gn : forallb numeral_char gp = true)
    by (subst gp; destruct grouping; [apply group_numeral|apply digit_numeral]; exact I1).
  assert (Gp : count "." gp = O).
  { subst gp. destruct grouping; [now apply group_no_point|].
    now apply count_digits. }
  assert (Gr : remove_char "," gp = ip).
  { subst gp. destruct grouping; [now apply remove_comma_group|].
    now apply remove_char_digits. }
  clear Egp.
  assert (Hnum : forallb numeral_char (sign_text s ++ gp ++ "."%char :: fp) = true).
  { rewrite !forallb_app. cbn [forallb]. rewrite Gn, (digit_numeral _ F1).
    destruct s; reflexivity. }
  unfold _to_float. rewrite (numeral_strip _ Hnum).
  destruct (sign_text s ++ gp ++ "."%char :: fp) as [|c t] eqn:E.
  { destruct s, gp; discriminate. }
  rewrite <- E. rewrite app_assoc.
  rewrite normalize_point_last;
    [|rewrite count_app, Gp; destruct s; reflexivity|exact F1].
  rewrite <- app_assoc, !remove_char_app, Gr.
  replace (remove_char "," (sign_text s)) with (sign_text s) by (destruct s; reflexivity).
  replace (remove_char "," ("."%char :: fp)) with ("."%char :: fp)
    by (unfold remove_char; cbn [filter Ascii.eqb negb];
        change (filter _ fp) with (remove_char "," fp);
        now rewrite remove_char_digits).
  unfold float_of_str. rewrite (py_float_fixed s ip fp I1 I3 F1), V, F3. reflexivity.
Qed.

Lemma isnan_false_not_nan (v : float) : isnan v = false -> Prim2SF v <> S754_nan.
Proof.
  unfold isnan, is_nan. rewrite FloatAxioms.eqb_spec. intros H E.
  rewrite E in H. discriminate.
Qed.

Lemma format_f_shape (p : nat) (grouping : bool) (v : float) :
  isnan v = false -> (1 <= p)%nat -> fixed_shape p grouping (format_f p grouping v).
Proof.
  intros Hn Hp. apply isnan_false_not_nan in Hn. unfold format_f.
  destruct (Prim2SF v) as [s|s| |s m e]; [| |contradiction|].
  - apply fixed_text_shape; [lia|exact Hp].
  - exists s. now left.
  - apply fixed_text_shape; [apply scaled_nonneg|exact Hp].
Qed.

Lemma format_f_reread (p : nat) (grouping : bool) (v : float) :
  isnan v = false -> (1 <= p)%nat ->
  _to_float (format_f p grouping v) = Ok (reread p v).
Proof.
  intros Hn Hp. apply isnan_false_not_nan in Hn. unfold format_f, reread.
  destruct (Prim2SF v) as [s|s| |s m e]; [| |contradiction|].
  - apply to_float_fixed_text; [lia|exact Hp].
  - destruct s; vm_compute; reflexivity.
  - apply to_float_fixed_text; [apply scaled_nonneg|exact Hp].
Qed.

Lemma fixed_shape_not_NA (p : nat) (grouping : bool) (text : str) :
  fixed_shape p grouping text -> text <> ("NA" : str).
Proof.
  intros (s & [->|(ip & fp & -> & _)]) E.
  - destruct s; discriminate.
  - assert (H : count "." (sign_text s ++ (if grouping then group ip else ip)
                           ++ "."%char :: fp) = count "." ("NA" : str))
      by now rewrite E.
    rewrite !count_app, count_cons in H. cbn in H. lia.
Qed.

End FormatTextFacts.

(** X11. [fmt_money] and [fmt_ratio] return the text NA exactly for [None]
    and for NaN.  For any other value the text is an optional minus sign
    followed by [inf], or by the digits of the integer part (for
    [fmt_money], with a comma between groups of three), a point and exactly
    two decimals ([fmt_money]) or three ([fmt_ratio]). *)
Theorem X11_format_shape (x : option float) :
  (fmt_money x = ("NA" : str) <-> x = None \/ exists v, x = Some v /\ isnan v = true) /\
  (fmt_ratio x = ("NA" : str) <-> x = None \/ exists v, x = Some v /\ isnan v = true) /\
  (forall v, x = Some v -> isnan v = false ->
     fixed_shape 2 true (fmt_money x) /\ fixed_shape 3 false (fmt_ratio x)).
Proof.
  destruct x as [v|]; cbn [fmt_money fmt_ratio].
  2:{ split; [split; auto|]. split; [split; auto|]. discriminate. }
  destruct (isnan v) eqn:Hn.
  - split; [split; [eauto|reflexivity]|]. split; [split; [eauto|reflexivity]|].
    intros w [= <-] Hw. congruence.
  - assert (S2 := format_f_shape 2 true v Hn ltac:(lia)).
    assert (S3 := format_f_shape 3 false v Hn ltac:(lia)).
    split; [|split].
    + split; [intros E; now apply fixed_shape_not_NA in S2|].
      intros [H|(w & [= <-] & H)]; congruence.
    + split; [intros E; now apply fixed_shape_not_NA in S3|].
      intros [H|(w & [= <-] & H)]; congruence.
    + intros w [= <-] _. auto.
Qed.

Lemma X11_format_shape_witness :
  fixed_shape 2 true (fmt_money (Some 4875%float)).
Proof.
  apply (proj1 (proj2 (proj2 (X11_format_shape (Some 4875%float))) 4875%float
                  eq_refl eq_refl)).
Defined.

(** X12. The number parser of the input reads the numbers that the summary
    prints: on the text that [fmt_money] or [fmt_ratio] gives for a value
    that is not NaN, [_to_float] returns a float, which is the value itself
    for an infinity or a zero and otherwise the binary64 number nearest to
    the decimal printed; on the text NA it raises. *)
Theorem X12_summary_text_reads_back (v : float) :
  isnan v = false ->
  _to_float (fmt_money (Some v)) = Ok (reread 2 v) /\
  _to_float (fmt_ratio (Some v)) = Ok (reread 3 v) /\
  _to_float (fmt_money None) = Err (FloatValueError "NA").
Proof.
  intros Hn. cbn [fmt_money fmt_ratio]. rewrite Hn.
  split; [apply format_f_reread; [exact Hn|lia]|].
  split; [apply format_f_reread; [exact Hn|lia]|]. vm_compute. reflexivity.
Qed.

Lemma X12_summary_text_reads_back_witness :
  isnan 1234567.891%float = false /\
  _to_float (fmt_money (Some 1234567.891%float)) = Ok 1234567.89%float.
Proof.
  split; [reflexivity|].
  apply (proj1 (X12_summary_text_reads_back 1234567.891%float eq_refl)).
Defined.

(** ** A ledger with no earned value *)

Section ZeroFacts.

Lemma eqb_zero_SF (x : float) :
  (x =? 0) = true -> exists s, Prim2SF x = S754_zero s.
Proof.
  rewrite FloatAxioms.eqb_spec. change (Prim2SF 0) with (S754_zero false).
  destruct (Prim2SF x) as [s|s| |s m e]; cbn; try discriminate; eauto.
  - destruct s; discriminate.
  - destruct s; discriminate.
Qed.

Lemma zero_or_nan_SF (x : float) :
  zero_or_nan x = true <-> (Prim2SF x = S754_nan \/ exists s, Prim2SF x = S754_zero s).
Proof.
  unfold zero_or_nan. split.
  - intros [H|H]%orb_prop.
    + left. apply isnan_nan in H. now subst.
    + right. now apply eqb_zero_SF.
  - intros [H|(s & H)]; apply orb_true_iff.
    + left. unfold isnan, is_nan. rewrite FloatAxioms.eqb_spec, H. reflexivity.
    + right. rewrite FloatAxioms.eqb_spec, H. reflexivity.
Qed.

Lemma div_zero_num (e a : float) : (e =? 0) = true -> zero_or_nan (e / a) = true.
Proof.
  intros H. apply eqb_zero_SF in H as (s & H). apply zero_or_nan_SF.
  rewrite div_spec, H. destruct (Prim2SF a) as [sa|sa| |sa ma ea]; cbn; eauto.
Qed.

Lemma safe_div_zero_num (e a : float) :
  (e =? 0) = true -> zero_or_nan (_safe_div e a) = true.
Proof.
  intros H. rewrite safe_div_spec. destruct (a =? 0); [reflexivity|].
  now apply div_zero_num.
Qed.

Lemma mul_zero_or_nan (c s : float) :
  zero_or_nan c = true -> zero_or_nan s = true -> zero_or_nan (c * s) = true.
Proof.
  intros Hc Hs. apply zero_or_nan_SF in Hc, Hs. apply zero_or_nan_SF.
  rewrite mul_spec.
  destruct Hc as [->|(sc & ->)], Hs as [->|(ss & ->)]; cbn; eauto.
Qed.

Lemma safe_div_zero_or_nan_den (x d : float) :
  zero_or_nan d = true -> _safe_div x d = nan.
Proof.
  intros [H|H]%orb_prop.
  - apply isnan_nan in H. subst. apply safe_div_nan_r.
  - now apply safe_div_zero_denominator.
Qed.

End ZeroFacts.

(** X13. When the cumulative EV of the ledger is zero (no value earned
    yet, or corrections that cancel), the six forecasts of the summary are
    NaN, whatever the BAC and the PV and AC columns. *)
Theorem X13_no_earned_value (rows : list EVMRow) (bac : option float) :
  (total ev rows =? 0) = true ->
  Forall (fun x => x = nan) (forecasts (snd (compute_evm rows bac))).
Proof.
  intros Hz. destruct rows as [|r rows].
  { repeat constructor. }
  destruct (loop_last (r :: rows)) as (d & Hl & _ & He & _ & _ & _ & Hspi & Hcpi);
    [discriminate|].
  rewrite <- He in Hz.
  assert (Zc : zero_or_nan (Detail.CPI d) = true)
    by (rewrite Hcpi; now apply safe_div_zero_num).
  assert (Zs : zero_or_nan (Detail.SPI d) = true)
    by (rewrite Hspi; now apply safe_div_zero_num).
  unfold forecasts, compute_evm. cbn [snd Summary.EAC_CPI Summary.ETC_CPI
    Summary.VAC_CPI Summary.EAC_CPI_SPI Summary.ETC_CPI_SPI Summary.VAC_CPI_SPI].
  rewrite Hl. cbn [get]. rewrite guard_denom.
  rewrite (safe_div_zero_or_nan_den _ (Detail.CPI d) Zc).
  rewrite (safe_div_zero_or_nan_den _ _ (mul_zero_or_nan _ _ Zc Zs)).
  rewrite add_nan_r.
  destruct (negb (isnan (Detail.CPI d)));
    destruct (negb (isnan (Detail.CPI d * Detail.SPI d)));
    repeat constructor.
Qed.

Lemma X13_no_earned_value_witness :
  Forall (fun x => x = nan)
    (forecasts (snd (compute_evm
                       [mk_EVMRow (mk_datetime 2024 1 1) 1000 0 400] (Some 5000)))).
Proof.
  apply (X13_no_earned_value
           [mk_EVMRow (mk_datetime 2024 1 1) 1000 0 400] (Some 5000)).
  reflexivity.
Defined.

(** ** White space around a cell *)

Section SpaceFacts.

Lemma lstrip_spaces (pre s : str) :
  forallb isspace pre = true -> lstrip (pre ++ s) = lstrip s.
Proof.
  induction pre as [|c pre IH]; [reflexivity|]. cbn [forallb app lstrip].
  intros [Hc Hp]%andb_prop. rewrite Hc. auto.
Qed.

Lemma lstrip_all_spaces (s : str) : forallb isspace s = true -> lstrip s = [].
Proof.
  intros H. rewrite <- (app_nil_r s). now rewrite lstrip_spaces.
Qed.

Lemma rstrip_spaces (s suf : str) :
  forallb isspace suf = true -> rstrip (s ++ suf) = rstrip s.
Proof.
  intros H. unfold rstrip. rewrite rev_app_distr, lstrip_spaces; [reflexivity|].
  rewrite forallb_forall in *. intros x Hx. apply H. now apply in_rev.
Qed.

Lemma lstrip_app (s suf : str) :
  forallb isspace suf = true ->
  lstrip (s ++ suf) = match lstrip s with [] => [] | l => l ++ suf end.
Proof.
  intros H. induction s as [|c s IH]; cbn [app lstrip].
  - now apply lstrip_all_spaces.
  - destruct (isspace c); [exact IH|reflexivity].
Qed.

(** [strip] takes off any white space put around a text. *)
Lemma strip_spaces (pre s suf : str) :
  forallb isspace pre = true -> forallb isspace suf = true ->
  strip (pre ++ s ++ suf) = strip s.
Proof.
  intros Hp Hs. unfold strip. rewrite (lstrip_spaces pre _ Hp), (lstrip_app s suf Hs).
  destruct (lstrip s) as [|c l]; [reflexivity|]. now apply rstrip_spaces.
Qed.

End SpaceFacts.

(** X14. White space before and after the text of a cell changes nothing:
    with any white space around it an amount is read as the same float, or
    refused with the same error, and a date is read as the same date. *)
Theorem X14_spaces_around_cell (pre suf : str) :
  forallb isspace pre = true -> forallb isspace suf = true ->
  (forall x, _to_float (pre ++ x ++ suf) = _to_float x) /\
  (forall d dt, _parse_date (pre ++ d ++ suf) = Ok dt <-> _parse_date d = Ok dt).
Proof.
  intros Hp Hs. split.
  - intros x. unfold _to_float. now rewrite (strip_spaces pre x suf Hp Hs).
  - intros d dt. unfold _parse_date. rewrite (strip_spaces pre d suf Hp Hs).
    destruct (try_formats (strip d) date_formats); split; intros H;
      first [exact H | discriminate].
Qed.

Lemma X14_spaces_around_cell_witness :
  _to_float ((" " : str) ++ ("12,345.67" : str) ++ ("  " : str))
  = _to_float "12,345.67".
Proof.
  apply (proj1 (X14_spaces_around_cell " " "  " eq_refl eq_refl)).
Defined.

(** ** The order of the table *)

Section TableOrderFacts.

Lemma table_dates (rows : list EVMRow) :
  map Detail.Date (out (loop rows)) = map date rows.
Proof.
  induction rows as [|r rows IH] using rev_ind; [reflexivity|].
  now rewrite out_loop_snoc, !map_app, IH.
Qed.

Lemma sorted_by_dates (rows : list EVMRow) : forall table,
  map Detail.Date table = map date rows ->
  StronglySorted by_date rows -> StronglySorted by_detail_date table.
Proof.
  induction rows as [|r rows IH]; intros [|d table] E Hs; try discriminate;
    [constructor|].
  cbn [map] in E. injection E as Ed Et.
  apply StronglySorted_inv in Hs as [Hs Hr].
  constructor; [now apply IH|].
  apply Forall_forall. intros d' Hd'.
  assert (Hin : In (Detail.Date d') (map date rows))
    by (rewrite <- Et; now apply in_map).
  apply in_map_iff in Hin as (r' & Er' & Hr').
  rewrite Forall_forall in Hr. unfold by_detail_date. rewrite Ed, <- Er'.
  now apply Hr.
Qed.

End TableOrderFacts.

(** X15. The table that a run writes is in ascending date order, whatever
    the order of the records in the file: each line is dated no later than
    every line after it. *)
Theorem X15_table_in_date_order
  (reader : list RawRow.t) (bac : option float) (table : list Detail.t) (s : Summary.t) :
  main reader bac = Ok (table, s) -> StronglySorted by_detail_date table.
Proof.
  unfold main. destruct (read_evm_csv reader) as [rows|] eqn:E; [|discriminate].
  cbn [bind].
  assert (Hs : StronglySorted by_date rows).
  { apply read_evm_csv_ok in E as (_ & -> & _). apply sort_by_date_sorted. }
  assert (Ht : map Detail.Date (fst (compute_evm rows bac)) = map date rows)
    by apply table_dates.
  destruct (compute_evm rows bac) as [t s']. cbn [fst] in Ht.
  destruct t as [|d t]; [discriminate|]. cbn [write_csv bind].
  intros [= <- _]. eapply sorted_by_dates; eauto.
Qed.

Lemma X15_table_in_date_order_witness :
  exists table s,
    main reader_two None = Ok (table, s) /\ StronglySorted by_detail_date table.
Proof.
  eexists. eexists. split; [vm_compute; reflexivity|].
  eapply (X15_table_in_date_order reader_two None). vm_compute. reflexivity.
Defined.
